(** * iotransit-wb: the IoTransit WebSocket Bridge client

    A shallow embedding of [lib/iotransit-wb.js] (class [IoTransitWB]) and the
    properties of its constructor, its transport listeners and its guarded
    send.  JavaScript objects are finite maps from property names to values,
    the instance is a record of its fields, and every method or listener is a
    computation over the instance that logs the calls it makes on its
    collaborators (the WebSocket client, the connection, the event emitter,
    the timer queue, the console). *)

From Stdlib Require Import ZArith String List.
From Stdlib Require Strings.Byte.
From stdpp Require Import base option list gmap strings pretty.
Import ListNotations.
Local Open Scope string_scope.
Local Open Scope Z_scope.

(** ** JavaScript values *)

(** Numbers are the integral ones ([VNum]) and [NaN]; a non-integral number
    behaves like a non-zero integer in every operation used below. *)
#[warnings="-register-all"]
Inductive value : Type :=
| VUndef
| VNull
| VBool (b : bool)
| VNum (n : Z)
| VNaN
| VStr (s : string)
| VArr (elems : list value)
| VObj (props : gmap string value).

(** ToBoolean: the condition of [if], [&&], [||] and [?:]. *)
Definition truthy (v : value) : bool :=
  match v with
  | VUndef | VNull | VNaN => false
  | VBool b => b
  | VNum n => negb (n =? 0)
  | VStr s => negb (String.eqb s "")
  | VArr _ | VObj _ => true
  end.

(** [a || b] *)
Definition js_or (a b : value) : value := if truthy a then a else b.

(** ToString, as applied by [+] with a string operand and by
    [String.prototype.indexOf], on the values it is a plain function of:
    strings, booleans, [null], [undefined], [NaN], integers below [2^53] in
    magnitude (printed in decimal), and arrays and objects that define no
    [toString] or [valueOf] of their own.  The statements that print a
    supplied value say so ([prints_plainly]). *)
Fixpoint to_string (v : value) : string :=
  match v with
  | VUndef => "undefined"
  | VNull => "null"
  | VBool true => "true"
  | VBool false => "false"
  | VNum n => pretty n
  | VNaN => "NaN"
  | VStr s => s
  | VArr elems =>
      (fix join (l : list value) : string :=
         match l with
         | [] => ""
         | x :: r =>
             let sx := match x with VUndef | VNull => "" | _ => to_string x end in
             match r with [] => sx | _ :: _ => sx ++ "," ++ join r end
         end) elems
  | VObj _ => "[object Object]"
  end.

(** [a === b] where [b] has just been produced by [JSON.parse]: an array or
    an object of a decoded message is a fresh reference, identical to no value
    held by the instance. *)
Definition strict_equals (a b : value) : bool :=
  match a, b with
  | VUndef, VUndef | VNull, VNull => true
  | VBool x, VBool y => Bool.eqb x y
  | VNum x, VNum y => x =? y
  | VStr x, VStr y => String.eqb x y
  | _, _ => false
  end.

(** [o.k] on an object: [undefined] when the property is missing.  Objects
    are plain data, so only own properties are looked up; the class reads no
    property that [Object.prototype] defines. *)
Definition get (o : gmap string value) (k : string) : value :=
  default VUndef (o !! k).

(** [Object.prototype.hasOwnProperty.call(o, k)] *)
Definition owns (o : gmap string value) (k : string) : bool :=
  match o !! k with Some _ => true | None => false end.

(** [Array.prototype.indexOf]: first index holding a strictly equal element,
    [-1] when there is none. *)
Fixpoint indexOf_from (i : Z) (l : list value) (x : value) : Z :=
  match l with
  | [] => -1
  | y :: r => if strict_equals y x then i else indexOf_from (i + 1) r x
  end.

Definition indexOf (l : list value) (x : value) : Z := indexOf_from 0 l x.

(** [String.prototype.indexOf] *)
Definition string_indexOf (s : string) (x : value) : Z :=
  match String.index 0 (to_string x) s with
  | Some i => Z.of_nat i
  | None => -1
  end.

(** ** Exceptions *)

Inductive exn : Type :=
| Error (message : string)
| TypeError
| SyntaxError.

#[global] Instance exn_ret : MRet (sum exn) := λ A a, inr a.
#[global] Instance exn_bind : MBind (sum exn) :=
  λ A B f m, match m with inl e => inl e | inr a => f a end.

(** [o.hasOwnProperty(k)]: the method is read from [o] itself, so an own
    property named [hasOwnProperty] shadows the one of [Object.prototype].
    No value here is a function, and calling such a property throws a
    TypeError. *)
Definition hasOwnProperty (o : gmap string value) (k : string) : exn + bool :=
  match o !! "hasOwnProperty" with
  | Some _ => inl TypeError
  | None => inr (owns o k)
  end.

(** ** Module constants *)

Definition AUTH_USER : value := VStr "api1".
Definition AUTH_PASS : value := VStr "external".
Definition APPBRIDGE_URI : value := VStr "127.0.0.1".
Definition WEBSOCKETBRIDGE_URI : value := VStr "127.0.0.1".
Definition WEBSOCKETBRIDGE_PORT : value := VNum 444.
Definition WEBSOCKETBRIDGE_SUBPROTOCOL : value := VStr "wb.iotransit.net".
Definition WEBSOCKETBRIDGE_ORIGIN : value := VStr "bridge".
Definition AUTO_RECONNECT : value := VBool true.
Definition RECONNECTION_TIMER : value := VNum 5000.
Definition SECURE_WEBSOCKET : value := VBool true.

(** ** The instance *)

(** [this.wb]: the property [connection] is the one the connect listener
    assigns; a connection is named by a number. *)
Record WebSocketClient : Type := { connection : option nat }.

Record IoTransitWB : Type := {
  options : gmap string value;
  websocketBridgeConnected : bool;
  authDevice : string;
  authDomain : string;
  authenticated : bool;
  wb : option WebSocketClient      (* undefined until connect() *)
}.

(** ** constructor (options) *)

(** Lines 57-65: the accepted tags. *)
Definition set_acceptTags (o : gmap string value) : exn + gmap string value :=
  own ← hasOwnProperty o "accepts";
  if negb (own : bool) then
    mret (<["acceptTags" := VArr [get o "appletId"]]> o)
  else
    mret match get o "accepts" with
         | VStr s => <["acceptTags" := VArr [VStr s]]> o
         | VArr l => <["acceptTags" := VArr l]> o
         | _ => o
         end.

(** [this.options.k = this.options && this.options.k || d] *)
Definition default_or (k : string) (d : value) (o : gmap string value)
  : gmap string value :=
  <[k := js_or (get o k) d]> o.

(** [this.options.k = this.options && this.options.hasOwnProperty(k) ? this.options.k : d] *)
Definition default_own (k : string) (d : value) (o : gmap string value)
  : exn + gmap string value :=
  own ← hasOwnProperty o k;
  mret (<[k := if (own : bool) then get o k else d]> o).

(** Lines 66-74, in order. *)
Definition set_defaults (o : gmap string value) : exn + gmap string value :=
  let o := default_or "authUser" AUTH_USER o in
  let o := default_or "authPass" AUTH_PASS o in
  let o := default_or "websocketBridgeUri" WEBSOCKETBRIDGE_URI o in
  let o := default_or "websocketBridgePort" WEBSOCKETBRIDGE_PORT o in
  let o := default_or "websocketBridgeSubProtocol" WEBSOCKETBRIDGE_SUBPROTOCOL o in
  let o := default_or "websocketBridgeOrigin" WEBSOCKETBRIDGE_ORIGIN o in
  o ← default_own "autoReconnect" AUTO_RECONNECT o;
  let o := default_or "reconnectionTimer" RECONNECTION_TIMER o in
  default_own "secureWebSocket" SECURE_WEBSOCKET o.

(** Lines 48-56: [this.options] after the first conditional, or the exception
    it throws.  An array is an object without an own [appletId]; for a number
    or a boolean no branch assigns [this.options], and line 57 reads a
    property of [undefined].  The instance takes the caller's object over
    ([this.options = options]) and nothing in the class writes it after the
    constructor. *)
Definition initial_options (input : value) : exn + gmap string value :=
  match input with
  | VUndef | VNull => inl (Error "mandatory appletId not passed to constructor")
  | VObj o =>
      own ← hasOwnProperty o "appletId";
      if negb (own : bool)
      then inl (Error "mandatory appletId not provided in config")
      else mret o
  | VArr _ => inl (Error "mandatory appletId not provided in config")
  | VStr s => mret (<["appletId" := VStr s]> ∅)
  | VBool _ | VNum _ | VNaN => inl TypeError
  end.

Definition constructor (input : value) : exn + IoTransitWB :=
  o ← initial_options input;
  o ← set_acceptTags o;
  o ← set_defaults o;
  mret {| options := o;
          websocketBridgeConnected := false;
          authDevice := "";
          authDomain := "";
          authenticated := false;
          wb := None |}.

(** ** Collaborators and the calls made on them *)

(** The three event emitters in play: the instance itself, the WebSocket
    client [this.wb], and a transport connection. *)
Inductive emitter : Type :=
| Manager
| Client
| Connection (c : nat).

(** The callback handed to [setTimeout] on lines 91-93 and 105-107; it closes
    over [webSocketPrefix]. *)
Inductive callback : Type :=
| Reconnect (webSocketPrefix : string).

Inductive effect : Type :=
| Emit (target : emitter) (event : string) (arg : value)
| On (target : emitter) (event : string)
| ClientConnect (requestedUrl : string) (protocols origin : value)
| SendUTF (c : nat) (data : value)
| Send (c : nat) (data : value)
| Drop (c : nat)
| SetTimeout (cb : callback) (delay : value)
| ConsoleLog (text : string).

(** A frame handed to the message listener. *)
Record message : Type := {
  type : string;
  utf8Data : string;
  binaryData : list Byte.byte
}.

(** The instance together with what the runtime holds for it: the [connected]
    property of each connection (written by the transport only) and the
    pending timers with their delays. *)
Record world : Type := {
  this : IoTransitWB;
  connected : gmap nat bool;
  timers : list (callback * value)
}.

Definition new_world (m : IoTransitWB) : world :=
  {| this := m; connected := ∅; timers := [] |}.

(** ** Computations: state, log of calls, exceptions *)

Definition M (A : Type) : Type := world → world * list effect * (exn + A).

Definition ret {A} (a : A) : M A := λ w, (w, [], inr a).

Definition bind {A B} (m : M A) (f : A → M B) : M B :=
  λ w, match m w with
       | (w1, t1, inl e) => (w1, t1, inl e)
       | (w1, t1, inr a) =>
           match f a w1 with
           | (w2, t2, r) => (w2, (t1 ++ t2)%list, r)
           end
       end.

#[global] Instance M_ret : MRet M := @ret.
#[global] Instance M_bind : MBind M := λ A B f m, bind m f.

Definition throw {A} (e : exn) : M A := λ w, (w, [], inl e).
Definition call (e : effect) : M unit := λ w, (w, [e], inr tt).
Definition read : M IoTransitWB := λ w, (w, [], inr (this w)).
Definition write (f : IoTransitWB → IoTransitWB) : M unit :=
  λ w, ({| this := f (this w); connected := connected w; timers := timers w |},
        [], inr tt).

Definition trace_of {A} (r : world * list effect * (exn + A)) : list effect :=
  snd (fst r).
Definition world_of {A} (r : world * list effect * (exn + A)) : world :=
  fst (fst r).
Definition result_of {A} (r : world * list effect * (exn + A)) : exn + A :=
  snd r.

Definition set_websocketBridgeConnected (b : bool) (t : IoTransitWB) : IoTransitWB :=
  {| options := options t; websocketBridgeConnected := b;
     authDevice := authDevice t; authDomain := authDomain t;
     authenticated := authenticated t; wb := wb t |}.

Definition set_wb (c : WebSocketClient) (t : IoTransitWB) : IoTransitWB :=
  {| options := options t; websocketBridgeConnected := websocketBridgeConnected t;
     authDevice := authDevice t; authDomain := authDomain t;
     authenticated := authenticated t; wb := Some c |}.

(** [this.wb], whose properties are about to be read: a TypeError when
    [connect()] has not assigned it. *)
Definition this_wb : M WebSocketClient :=
  t ← read;
  match wb t with
  | Some c => mret c
  | None => throw TypeError
  end.

(** [connection.connected], as a condition. *)
Definition connection_connected (c : nat) : M bool :=
  λ w, (w, [], inr (default false (connected w !! c))).

(** [setTimeout(cb, delay)] *)
Definition setTimeout (cb : callback) (delay : value) : M unit :=
  λ w, ({| this := this w; connected := connected w;
           timers := (timers w ++ [(cb, delay)])%list |},
        [SetTimeout cb delay], inr tt).

(** [webSocketPrefix + this.options.websocketBridgeUri + ':' +
    this.options.websocketBridgePort + '/'] *)
Definition requestedUrl (webSocketPrefix : string) (o : gmap string value) : string :=
  webSocketPrefix ++ to_string (get o "websocketBridgeUri") ++ ":"
    ++ to_string (get o "websocketBridgePort") ++ "/".

(** [this.wb.connect(url, this.options.websocketBridgeSubProtocol,
    this.options.websocketBridgeOrigin)], the call of lines 86, 92 and 106. *)
Definition wb_connect (webSocketPrefix : string) : M unit :=
  _ ← this_wb;
  t ← read;
  call (ClientConnect (requestedUrl webSocketPrefix (options t))
          (get (options t) "websocketBridgeSubProtocol")
          (get (options t) "websocketBridgeOrigin")).

Definition run_callback (cb : callback) : M unit :=
  match cb with
  | Reconnect webSocketPrefix => wb_connect webSocketPrefix
  end.

(** Lines 90-94 and 104-108. *)
Definition reconnect_if_enabled (webSocketPrefix : string) : M unit :=
  t ← read;
  if truthy (get (options t) "autoReconnect")
  then setTimeout (Reconnect webSocketPrefix) (get (options t) "reconnectionTimer")
  else mret tt.

(** The object literal of line 97. *)
Definition authapp (o : gmap string value) : value :=
  VObj (<["t" := VStr "authapp"]>
        (<["p" := VObj (<["user" := get o "authUser"]>
                        (<["pass" := get o "authPass"]>
                         (<["accept" := get o "acceptTags"]> ∅)))]> ∅)).

(** [v.t] for a decoded value [v]. *)
Definition member (v : value) (k : string) : M value :=
  match v with
  | VUndef | VNull => throw TypeError
  | VObj o => mret (get o k)
  | _ => mret VUndef
  end.

(** [a.indexOf(x) !== -1]: arrays and strings have the method; reading it
    from [undefined] or [null], or calling it on anything else, is a
    TypeError. *)
Definition has_index (a x : value) : M bool :=
  match a with
  | VArr l => mret (negb (indexOf l x =? -1))
  | VStr s => mret (negb (string_indexOf s x =? -1))
  | _ => throw TypeError
  end.

Definition webSocketPrefix_of (o : gmap string value) : string :=
  if truthy (get o "secureWebSocket") then "wss://" else "ws://".

(** ** Vocabulary of the statements *)

(** The fields defaulted with [||] (lines 66-71 and 73) and the two
    defaulted on [hasOwnProperty] (lines 72 and 74), with their defaults. *)
Definition or_defaults : list (string * value) :=
  [ ("authUser", AUTH_USER);
    ("authPass", AUTH_PASS);
    ("websocketBridgeUri", WEBSOCKETBRIDGE_URI);
    ("websocketBridgePort", WEBSOCKETBRIDGE_PORT);
    ("websocketBridgeSubProtocol", WEBSOCKETBRIDGE_SUBPROTOCOL);
    ("websocketBridgeOrigin", WEBSOCKETBRIDGE_ORIGIN);
    ("reconnectionTimer", RECONNECTION_TIMER) ].

Definition own_defaults : list (string * value) :=
  [ ("autoReconnect", AUTO_RECONNECT);
    ("secureWebSocket", SECURE_WEBSOCKET) ].

(** The [accepts] and [appletId] a constructor argument carries. *)
Definition accepts_of (config : value) : option value :=
  match config with
  | VObj o => o !! "accepts"
  | _ => None
  end.

Definition appletId_of (config : value) : value :=
  match config with
  | VObj o => get o "appletId"
  | VStr s => VStr s
  | _ => VUndef
  end.


(** The argument names at least one tag: [accepts] is missing (the tag is
    then the identity), a string, or a list with an element. *)
Definition names_a_tag (config : value) : bool :=
  match accepts_of config with
  | None | Some (VStr _) | Some (VArr (_ :: _)) => true
  | Some _ => false
  end.

Definition is_string_or_array (v : value) : bool :=
  match v with
  | VStr _ | VArr _ => true
  | _ => false
  end.

(** Calls that ask the client for a connection, and calls that write to the
    network. *)
Definition is_connect_attempt (e : effect) : bool :=
  match e with
  | ClientConnect _ _ _ => true
  | _ => false
  end.

Definition is_network_write (e : effect) : bool :=
  match e with
  | SendUTF _ _ | Send _ _ => true
  | _ => false
  end.

(** Events delivered to the subscribers of the instance. *)
Definition is_manager_event (event : string) (e : effect) : bool :=
  match e with
  | Emit Manager ev _ => String.eqb ev event
  | _ => false
  end.

(** The connection [this.wb.connection] is there and its [connected]
    property is true. *)
Definition connection_open (w : world) : bool :=
  match wb (this w) with
  | Some cl =>
      match connection cl with
      | Some c => default false (connected w !! c)
      | None => false
      end
  | None => false
  end.

Section Bridge.

(** [JSON.parse] ([None]: it throws a SyntaxError) and [JSON.stringify]. *)
Variable JSON_parse : string → option value.
Variable JSON_stringify : value → value.

(** *** Listeners on the client (lines 87-95 and 96-128) *)

Definition on_connectFailed (webSocketPrefix : string) (err : string) : M unit :=
  write (set_websocketBridgeConnected false);;
  call (Emit Manager "connectionFailed" (VStr err));;
  reconnect_if_enabled webSocketPrefix.

Definition on_connect (c : nat) : M unit :=
  t ← read;
  call (SendUTF c (JSON_stringify (authapp (options t))));;
  call (On (Connection c) "error");;
  call (On (Connection c) "close");;
  _ ← this_wb;
  write (set_wb {| connection := Some c |});;
  write (set_websocketBridgeConnected true);;
  call (Emit Manager "connection" (VStr "websocket bridge connected"));;
  call (On (Connection c) "message").

(** *** Listeners on the connection *)

(** Lines 98-100.  The listener is a [function], not an arrow function:
    its [this] is the emitter it is attached to, the connection [c]. *)
Definition on_error (c : nat) (err : string) : M unit :=
  call (Emit (Connection c) "connectionError" (VStr err)).

(** Lines 101-109. *)
Definition on_close (webSocketPrefix : string) : M unit :=
  write (set_websocketBridgeConnected false);;
  call (Emit Manager "connectionClose" (VStr "websocket bridge connection closed"));;
  reconnect_if_enabled webSocketPrefix.

(** Lines 113-127.  [rcvMsg.t] is read by the [switch] first, so a decoded
    [null] fails there; the only [case] is [default]. *)
Definition on_message (msg : message) : M unit :=
  if String.eqb (type msg) "utf8" then
    match JSON_parse (utf8Data msg) with
    | None => throw SyntaxError
    | Some rcvMsg =>
        tag ← member rcvMsg "t";
        t ← read;
        found ← has_index (get (options t) "acceptTags") tag;
        if found || strict_equals tag (VStr "all")
        then call (Emit Manager "wbMessage" rcvMsg)
        else mret tt
    end
  else if String.eqb (type msg) "binary" then
    call (ConsoleLog ("websocket bridge client received a binary of "
                        ++ pretty (Z.of_nat (length (binaryData msg)))
                        ++ " bytes"))
  else mret tt.

(** *** Methods *)

(** Lines 81-129: the two listeners registered here are [on_connectFailed]
    and [on_connect], closed over [webSocketPrefix]. *)
Definition connect : M unit :=
  t ← read;
  let webSocketPrefix := webSocketPrefix_of (options t) in
  write (set_wb {| connection := None |});;
  wb_connect webSocketPrefix;;
  call (On Client "connectFailed");;
  call (On Client "connect").

(** Lines 131-137. *)
Definition disconnect : M unit :=
  t ← read;
  if websocketBridgeConnected t then
    cl ← this_wb;
    match connection cl with
    | Some c => call (Drop c)
    | None => throw TypeError
    end
  else mret tt.

(** Lines 139-146.  [this.wb.connection.connected] is read from the
    connection object. *)
Definition sendWB (sendMsg : value) : M unit :=
  cl ← this_wb;
  match connection cl with
  | Some c =>
      ready ← connection_connected c;
      if (ready : bool)
      then call (Send c (JSON_stringify sendMsg))
      else call (Emit Manager "sendError" (VStr "websocket bridge not connected"))
  | None => call (Emit Manager "sendError" (VStr "websocket bridge not connected"))
  end.

(** ** The event loop *)

(** What can happen to an instance: a call of one of its methods by the
    owner, an event delivered to one of the listeners (with the variables
    the listener closes over), a pending timer firing, or the transport
    writing the [connected] property of a connection.  No order is
    imposed: a property of all runs holds of those a real transport
    produces. *)
Inductive input : Type :=
| Call_connect
| Call_disconnect
| Call_sendWB (sendMsg : value)
| Client_connectFailed (webSocketPrefix : string) (err : string)
| Client_connect (c : nat)
| Connection_error (c : nat) (err : string)
| Connection_close (webSocketPrefix : string)
| Connection_message (msg : message)
| Timer_fires (k : nat)
| Transport_sets_connected (c : nat) (b : bool).

(** The [k]-th pending timer fires and leaves the queue. *)
Definition fire (k : nat) : M unit :=
  λ w, match timers w !! k with
       | Some (cb, _) =>
           run_callback cb {| this := this w; connected := connected w;
                              timers := delete k (timers w) |}
       | None => (w, [], inr tt)
       end.

Definition step (i : input) : M unit :=
  match i with
  | Call_connect => connect
  | Call_disconnect => disconnect
  | Call_sendWB sendMsg => sendWB sendMsg
  | Client_connectFailed webSocketPrefix err => on_connectFailed webSocketPrefix err
  | Client_connect c => on_connect c
  | Connection_error c err => on_error c err
  | Connection_close webSocketPrefix => on_close webSocketPrefix
  | Connection_message msg => on_message msg
  | Timer_fires k => fire k
  | Transport_sets_connected c b =>
      λ w, ({| this := this w; connected := <[c := b]> (connected w);
               timers := timers w |}, [], inr tt)
  end.

(** An exception ends the listener or method that raised it; the loop
    goes on with the state as it was left. *)
Fixpoint run (ins : list input) (w : world) : world * list effect :=
  match ins with
  | [] => (w, [])
  | i :: rest =>
      let r := step i w in
      let r' := run rest (world_of r) in
      (fst r', (trace_of r ++ snd r')%list)
  end.

(** A whole session: construct the instance from [config], then run. *)
Definition session (config : value) (ins : list input)
  : exn + (world * list effect) :=
  match constructor config with
  | inl e => inl e
  | inr m => inr (run ins (new_world m))
  end.

End Bridge.

(** ** A sample deployment *)

(** The client [new IoTransitWB('lights')], a serializer, and a decoder that
    knows the three frames of the scenario. *)
Definition dq (s : string) : string :=
  String (Ascii.ascii_of_nat 34) s ++ String (Ascii.ascii_of_nat 34) "".

Definition frame_lights : string :=
  "{" ++ dq "t" ++ ":" ++ dq "lights" ++ "," ++ dq "p" ++ ":{" ++ dq "on" ++ ":true}}".
Definition frame_thermostat : string :=
  "{" ++ dq "t" ++ ":" ++ dq "thermostat" ++ "," ++ dq "p" ++ ":{}}".
Definition frame_all : string :=
  "{" ++ dq "t" ++ ":" ++ dq "all" ++ "," ++ dq "p" ++ ":{" ++ dq "shutdown" ++ ":true}}".

Definition record_lights : gmap string value :=
  {[ "t" := VStr "lights"; "p" := VObj {[ "on" := VBool true ]} ]}.
Definition record_thermostat : gmap string value :=
  {[ "t" := VStr "thermostat"; "p" := VObj ∅ ]}.
Definition record_all : gmap string value :=
  {[ "t" := VStr "all"; "p" := VObj {[ "shutdown" := VBool true ]} ]}.

Definition scenario_parse (s : string) : option value :=
  if String.eqb s frame_lights then Some (VObj record_lights)
  else if String.eqb s frame_thermostat then Some (VObj record_thermostat)
  else if String.eqb s frame_all then Some (VObj record_all)
  else None.

(** Stands for [JSON.stringify] in the scenario; no statement depends on the
    text it produces. *)
Definition scenario_stringify (v : value) : value :=
  match v with
  | VUndef => VUndef
  | _ => VStr (to_string v)
  end.

Definition text (data : string) : message :=
  {| type := "utf8"; utf8Data := data; binaryData := [] |}.

Definition lights_options : gmap string value :=
  {[ "appletId" := VStr "lights";
     "acceptTags" := VArr [VStr "lights"];
     "authUser" := AUTH_USER;
     "authPass" := AUTH_PASS;
     "websocketBridgeUri" := WEBSOCKETBRIDGE_URI;
     "websocketBridgePort" := WEBSOCKETBRIDGE_PORT;
     "websocketBridgeSubProtocol" := WEBSOCKETBRIDGE_SUBPROTOCOL;
     "websocketBridgeOrigin" := WEBSOCKETBRIDGE_ORIGIN;
     "autoReconnect" := AUTO_RECONNECT;
     "reconnectionTimer" := RECONNECTION_TIMER;
     "secureWebSocket" := SECURE_WEBSOCKET ]}.

Definition lights_instance : IoTransitWB :=
  {| options := lights_options;
     websocketBridgeConnected := false;
     authDevice := "";
     authDomain := "";
     authenticated := false;
     wb := None |}.

(** The instance once [connect()] has been called and connection [1] has
    been handed to the connect listener. *)
Definition lights_connected : world :=
  fst (run scenario_parse scenario_stringify
         [Call_connect; Client_connect 1; Transport_sets_connected 1 true]
         (new_world lights_instance)).

(** A second client, with a list of tags, its own user and an insecure
    bridge on another host. *)
Definition kitchen : gmap string value :=
  {[ "appletId" := VStr "kitchen";
     "accepts" := VArr [VStr "lights"; VStr "heating"];
     "authUser" := VStr "cook";
     "websocketBridgeUri" := VStr "bridge.local";
     "websocketBridgePort" := VNum 8080;
     "secureWebSocket" := VBool false ]}.

(** A decoder for a bridge that sends records without a tag. *)
Definition untagged_parse (s : string) : option value :=
  Some (VObj {[ "p" := VStr s ]}).

Definition binary (data : list Byte.byte) : message :=
  {| type := "binary"; utf8Data := ""; binaryData := data |}.

(** ** Vocabulary of the further statements *)

(** What lines 57-65 and lines 66-74 leave in [this.options] when no call
    of [hasOwnProperty] throws. *)
Definition acceptTags_after (o : gmap string value) : gmap string value :=
  if negb (owns o "accepts") then
    <["acceptTags" := VArr [get o "appletId"]]> o
  else
    match get o "accepts" with
    | VStr s => <["acceptTags" := VArr [VStr s]]> o
    | VArr l => <["acceptTags" := VArr l]> o
    | _ => o
    end.

Definition own_or (k : string) (d : value) (o : gmap string value)
  : gmap string value :=
  <[k := if owns o k then get o k else d]> o.

Definition defaults_after (o : gmap string value) : gmap string value :=
  let o := default_or "authUser" AUTH_USER o in
  let o := default_or "authPass" AUTH_PASS o in
  let o := default_or "websocketBridgeUri" WEBSOCKETBRIDGE_URI o in
  let o := default_or "websocketBridgePort" WEBSOCKETBRIDGE_PORT o in
  let o := default_or "websocketBridgeSubProtocol" WEBSOCKETBRIDGE_SUBPROTOCOL o in
  let o := default_or "websocketBridgeOrigin" WEBSOCKETBRIDGE_ORIGIN o in
  let o := own_or "autoReconnect" AUTO_RECONNECT o in
  let o := default_or "reconnectionTimer" RECONNECTION_TIMER o in
  own_or "secureWebSocket" SECURE_WEBSOCKET o.

(** [v] is a string or an integer below [2^53] in magnitude: [+] prints it
    as [to_string] does. *)
Definition prints_plainly (v : value) : bool :=
  match v with
  | VStr _ => true
  | VNum n => Z.abs n <? 2 ^ 53
  | _ => false
  end.

(** [rcvMsg.t] for a decoded value other than [null]. *)
Definition tag_of (rcvMsg : value) : value :=
  match rcvMsg with
  | VObj o => get o "t"
  | _ => VUndef
  end.

(** Some element of [tags] is strictly equal to [tag]. *)
Definition accepts_tag (tags : list value) (tag : value) : bool :=
  existsb (λ y, strict_equals y tag) tags.

(** The events the instance is written to emit on itself. *)
Definition manager_events : list string :=
  [ "connectionFailed"; "connection"; "connectionClose"; "wbMessage"; "sendError" ].

Definition is_timer_fires (i : input) : bool :=
  match i with
  | Timer_fires _ => true
  | _ => false
  end.

(** A transport that refuses [n] attempts in a row: after each refusal the
    one pending timer fires. *)
Fixpoint refusals (webSocketPrefix err : string) (n : nat) : list input :=
  match n with
  | O => []
  | S n' =>
      Client_connectFailed webSocketPrefix err :: Timer_fires 0
        :: refusals webSocketPrefix err n'
  end.

(** The target [connect()] asks for. *)
Definition target (o : gmap string value) : effect :=
  ClientConnect (requestedUrl (webSocketPrefix_of o) o)
    (get o "websocketBridgeSubProtocol") (get o "websocketBridgeOrigin").

(** * Properties *)

(** ** The constructor *)

Lemma owns_true (o : gmap string value) k :
  owns o k = true ↔ is_Some (o !! k).
Proof.
  unfold owns. destruct (o !! k); split; intros H;
    try done; try (by eexists); by destruct H.
Qed.

(** *** The calls of [hasOwnProperty] *)

Lemma hasOwnProperty_plain (o : gmap string value) k :
  o !! "hasOwnProperty" = None → hasOwnProperty o k = inr (owns o k).
Proof. unfold hasOwnProperty. by intros ->. Qed.

Lemma hasOwnProperty_shadowed (o : gmap string value) k v :
  o !! "hasOwnProperty" = Some v → hasOwnProperty o k = inl TypeError.
Proof. unfold hasOwnProperty. by intros ->. Qed.

Lemma hasOwnProperty_inr (o : gmap string value) k b :
  hasOwnProperty o k = inr b → o !! "hasOwnProperty" = None ∧ b = owns o k.
Proof.
  unfold hasOwnProperty. destruct (o !! "hasOwnProperty"); [done|].
  by intros [= <-].
Qed.

(** *** What the two passes leave *)

Lemma acceptTags_after_other (o : gmap string value) k :
  k ≠ "acceptTags" → acceptTags_after o !! k = o !! k.
Proof.
  intros H. unfold acceptTags_after.
  destruct (negb (owns o "accepts")).
  - by rewrite lookup_insert_ne.
  - destruct (get o "accepts"); try done; by rewrite lookup_insert_ne.
Qed.

(** What [defaults_after] leaves under each key. *)
Lemma defaults_after_or (o : gmap string value) k d :
  (k, d) ∈ or_defaults →
  defaults_after o !! k = Some (js_or (get o k) d).
Proof.
  unfold or_defaults. rewrite !elem_of_cons, elem_of_nil.
  intros H. destruct_or!; simplify_eq; try done;
    unfold defaults_after, default_or, own_or, get;
    by simplify_map_eq.
Qed.

Lemma defaults_after_own (o : gmap string value) k d :
  (k, d) ∈ own_defaults →
  defaults_after o !! k = Some (default d (o !! k)).
Proof.
  unfold own_defaults. rewrite !elem_of_cons, elem_of_nil.
  intros H. destruct_or!; simplify_eq; try done;
    unfold defaults_after, default_or, own_or, owns, get;
    simplify_map_eq; try done; repeat case_match; done.
Qed.

Lemma defaults_after_other (o : gmap string value) k :
  k ∉ ((or_defaults ++ own_defaults)%list).*1 →
  defaults_after o !! k = o !! k.
Proof.
  cbn. rewrite !not_elem_of_cons. intros H. destruct_and!.
  unfold defaults_after, default_or, own_or.
  by rewrite !lookup_insert_ne.
Qed.

Lemma acceptTags_after_lookup (o : gmap string value) :
  acceptTags_after o !! "acceptTags" =
    match o !! "accepts" with
    | None => Some (VArr [get o "appletId"])
    | Some (VStr s) => Some (VArr [VStr s])
    | Some (VArr l) => Some (VArr l)
    | Some _ => o !! "acceptTags"
    end.
Proof.
  unfold acceptTags_after, owns, get.
  destruct (o !! "accepts") as [[]|]; cbn; by rewrite ?lookup_insert_eq.
Qed.

Lemma defaults_after_keeps (o : gmap string value) k :
  k = "accepts" ∨ k = "appletId" ∨ k = "acceptTags" ∨ k = "hasOwnProperty" →
  defaults_after o !! k = o !! k.
Proof.
  intros Hk. apply defaults_after_other. cbn.
  rewrite !not_elem_of_cons, elem_of_nil. destruct_or!; subst; naive_solver.
Qed.

(** *** The passes as the constructor runs them *)

Lemma set_acceptTags_plain (o : gmap string value) :
  o !! "hasOwnProperty" = None → set_acceptTags o = inr (acceptTags_after o).
Proof.
  intros H. unfold set_acceptTags, acceptTags_after.
  rewrite (hasOwnProperty_plain _ _ H). cbn. by destruct (negb _).
Qed.

Lemma set_defaults_plain (o : gmap string value) :
  o !! "hasOwnProperty" = None → set_defaults o = inr (defaults_after o).
Proof.
  intros H. unfold set_defaults, default_own, defaults_after, own_or.
  rewrite hasOwnProperty_plain
    by (unfold default_or; by rewrite !lookup_insert_ne). cbn.
  rewrite hasOwnProperty_plain
    by (unfold default_or; by rewrite !lookup_insert_ne). done.
Qed.

Lemma initial_options_plain config (o : gmap string value) :
  initial_options config = inr o → o !! "hasOwnProperty" = None.
Proof.
  destruct config; cbn; try done.
  - by intros [= <-].
  - destruct (hasOwnProperty props "appletId") as [e|b] eqn:E; cbn; [done|].
    apply hasOwnProperty_inr in E as [E _].
    destruct b; cbn; [|done]. by intros [= <-].
Qed.

Lemma initial_options_VObj (o o' : gmap string value) :
  initial_options (VObj o) = inr o' →
  o' = o ∧ is_Some (o !! "appletId") ∧ o !! "hasOwnProperty" = None.
Proof.
  cbn. destruct (hasOwnProperty o "appletId") as [e|b] eqn:E; cbn; [done|].
  apply hasOwnProperty_inr in E as [E ->].
  destruct (owns o "appletId") eqn:Ho; cbn; [|done].
  intros [= <-]. by apply owns_true in Ho.
Qed.

Lemma initial_options_record (o : gmap string value) :
  is_Some (o !! "appletId") → o !! "hasOwnProperty" = None →
  initial_options (VObj o) = inr o.
Proof.
  intros Hid%owns_true Hs. cbn. rewrite (hasOwnProperty_plain _ _ Hs). cbn.
  by rewrite Hid.
Qed.

Lemma constructor_run config (o : gmap string value) :
  initial_options config = inr o →
  constructor config =
    inr {| options := defaults_after (acceptTags_after o);
           websocketBridgeConnected := false;
           authDevice := "";
           authDomain := "";
           authenticated := false;
           wb := None |}.
Proof.
  intros Ho. pose proof (initial_options_plain _ _ Ho) as Hs.
  unfold constructor. rewrite Ho. cbn.
  rewrite (set_acceptTags_plain _ Hs). cbn.
  rewrite set_defaults_plain by (by rewrite acceptTags_after_other). done.
Qed.

Lemma constructor_inr config m :
  constructor config = inr m →
  ∃ o, initial_options config = inr o ∧
       options m = defaults_after (acceptTags_after o) ∧ wb m = None.
Proof.
  destruct (initial_options config) as [e|o] eqn:Ho.
  - unfold constructor. by rewrite Ho.
  - rewrite (constructor_run _ _ Ho). intros [= <-]. by exists o.
Qed.

Lemma constructor_record (o : gmap string value) :
  is_Some (o !! "appletId") → o !! "hasOwnProperty" = None →
  ∃ m, constructor (VObj o) = inr m ∧
       options m = defaults_after (acceptTags_after o).
Proof.
  intros Hid Hs. rewrite (constructor_run _ _ (initial_options_record o Hid Hs)).
  by eexists.
Qed.

Lemma constructor_VObj (o : gmap string value) m :
  constructor (VObj o) = inr m →
  options m = defaults_after (acceptTags_after o) ∧
  is_Some (o !! "appletId") ∧ o !! "hasOwnProperty" = None.
Proof.
  intros (o' & Ho & Hopt & _)%constructor_inr.
  apply initial_options_VObj in Ho as (-> & Hid & Hs). done.
Qed.

Lemma initial_options_accepts config o :
  initial_options config = inr o →
  o !! "accepts" = accepts_of config ∧ get o "appletId" = appletId_of config.
Proof.
  destruct config; try done.
  - cbn. by intros [= <-].
  - by intros (-> & _ & _)%initial_options_VObj.
Qed.

(** The accepted tags of a constructed instance, by the shape of [accepts]. *)
Lemma constructor_acceptTags_lookup config m :
  constructor config = inr m →
  options m !! "acceptTags" =
    match accepts_of config with
    | None => Some (VArr [appletId_of config])
    | Some (VStr s) => Some (VArr [VStr s])
    | Some (VArr l) => Some (VArr l)
    | Some _ => match config with VObj o => o !! "acceptTags" | _ => None end
    end.
Proof.
  intros (o & Ho & -> & _)%constructor_inr.
  rewrite defaults_after_keeps by auto.
  rewrite acceptTags_after_lookup.
  destruct (initial_options_accepts _ _ Ho) as [-> ->].
  destruct (accepts_of config) as [[]|] eqn:Ha; try done;
    destruct config; try done;
    by apply initial_options_VObj in Ho as (-> & _ & _).
Qed.


(** C8 (amended): when an instance is constructed from a record, the fields
    are merged one by one.  A supplied [authUser], [authPass],
    [websocketBridgeUri], [websocketBridgePort],
    [websocketBridgeSubProtocol], [websocketBridgeOrigin] or
    [reconnectionTimer] is kept when it is truthy and is replaced by the
    default when it is falsy; a supplied [autoReconnect] or
    [secureWebSocket] is kept whatever it is; an omitted field gets its
    default; any other property but [acceptTags] is left as supplied. *)
Theorem constructor_merges_defaults (o : gmap string value) m :
  constructor (VObj o) = inr m →
  (∀ k d, (k, d) ∈ or_defaults →
     options m !! k =
       Some (match o !! k with
             | Some v => if truthy v then v else d
             | None => d
             end)) ∧
  (∀ k d, (k, d) ∈ own_defaults →
     options m !! k = Some (default d (o !! k))) ∧
  (∀ k, k ∉ ((or_defaults ++ own_defaults)%list).*1 → k ≠ "acceptTags" →
     options m !! k = o !! k).
Proof.
  intros (Ho & _ & _)%constructor_VObj. rewrite Ho. repeat split.
  - intros k d Hk. rewrite (defaults_after_or _ k d Hk).
    assert (k ≠ "acceptTags") as Hne.
    { intros ->. unfold or_defaults in Hk.
      rewrite !elem_of_cons, elem_of_nil in Hk. by destruct_or!. }
    unfold get. rewrite acceptTags_after_other by done.
    unfold js_or. by destruct (o !! k).
  - intros k d Hk. rewrite (defaults_after_own _ k d Hk).
    assert (k ≠ "acceptTags") as Hne.
    { intros ->. unfold own_defaults in Hk.
      rewrite !elem_of_cons, elem_of_nil in Hk. by destruct_or!. }
    by rewrite acceptTags_after_other.
  - intros k Hk Hne.
    by rewrite defaults_after_other, acceptTags_after_other.
Qed.

(** C9 (amended): after a successful construction whose argument names a
    tag ([accepts] absent, a string, or a list with an element) the
    accepted tags are a non-empty list: the identity alone when [accepts]
    is absent, the override otherwise.  An empty list is taken as it is. *)
Theorem constructor_acceptTags_nonempty config m :
  constructor config = inr m →
  names_a_tag config = true →
  ∃ tags, get (options m) "acceptTags" = VArr tags ∧ tags ≠ [] ∧
    match accepts_of config with
    | None => tags = [appletId_of config]
    | Some (VStr s) => tags = [VStr s]
    | Some v => v = VArr tags
    end.
Proof.
  intros Hm Hn. unfold get.
  rewrite (constructor_acceptTags_lookup _ _ Hm).
  unfold names_a_tag in Hn.
  destruct (accepts_of config) as [[| | | | | |[|x l]|]|]; try done;
    cbn; eexists; done.
Qed.

(** ** More on the constructor *)

Lemma defaults_after_or_truthy (o : gmap string value) k d :
  (k, d) ∈ or_defaults →
  ∃ v, defaults_after o !! k = Some v ∧ truthy v = true.
Proof.
  intros Hk. rewrite (defaults_after_or _ _ _ Hk). eexists. split; [done|].
  unfold js_or. destruct (truthy (get o k)) eqn:E; [done|].
  unfold or_defaults in Hk. rewrite !elem_of_cons, elem_of_nil in Hk.
  destruct_or!; simplify_eq; done.
Qed.

(** X3: after construction each of the nine defaulted fields is an own
    property of [this.options], and the seven defaulted with [||] are
    truthy: no empty host, no port or delay [0]. *)
Theorem constructor_fields_present config m k d :
  constructor config = inr m →
  (k, d) ∈ (or_defaults ++ own_defaults)%list →
  ∃ v, options m !! k = Some v ∧
       ((k, d) ∈ or_defaults → truthy v = true).
Proof.
  intros (o & _ & -> & _)%constructor_inr [Hk|Hk]%elem_of_app.
  - destruct (defaults_after_or_truthy (acceptTags_after o) k d Hk) as (v & Hv & Ht).
    by exists v.
  - rewrite (defaults_after_own _ _ _ Hk). eexists. split; [done|].
    intros Hor. unfold own_defaults in Hk. unfold or_defaults in Hor.
    rewrite !elem_of_cons, elem_of_nil in Hk.
    rewrite !elem_of_cons, elem_of_nil in Hor.
    destruct_or!; simplify_eq.
Qed.

Lemma defaults_after_fixed (o : gmap string value) :
  (∀ k d, (k, d) ∈ or_defaults → ∃ v, o !! k = Some v ∧ truthy v = true) →
  (∀ k d, (k, d) ∈ own_defaults → is_Some (o !! k)) →
  defaults_after o = o.
Proof.
  intros Hor Hown. apply map_eq. intros k.
  destruct (decide (k ∈ ((or_defaults ++ own_defaults)%list).*1)) as [Hk|Hk].
  - apply list_elem_of_fmap in Hk as ([k' d] & -> & [Hk|Hk]%elem_of_app); cbn.
    + rewrite (defaults_after_or _ _ _ Hk).
      destruct (Hor _ _ Hk) as (v & Hv & Ht). unfold js_or, get.
      rewrite Hv. cbn. by rewrite Ht.
    + rewrite (defaults_after_own _ _ _ Hk).
      destruct (Hown _ _ Hk) as (v & Hv). by rewrite Hv.
  - by apply defaults_after_other.
Qed.

Lemma acceptTags_after_defaults_after (o : gmap string value) :
  acceptTags_after (defaults_after (acceptTags_after o)) = defaults_after (acceptTags_after o).
Proof.
  pose proof (acceptTags_after_lookup o) as Ht.
  unfold acceptTags_after at 1. unfold owns, get.
  rewrite !defaults_after_keeps by auto.
  rewrite !acceptTags_after_other by done.
  destruct (o !! "accepts") as [v|] eqn:Ha; cbn.
  - destruct v; try done; apply insert_id; by rewrite defaults_after_keeps by auto.
  - apply insert_id. by rewrite defaults_after_keeps by auto.
Qed.

(** X2: constructing again from the options of a constructed instance
    changes nothing: the defaults and the accepted tags are the same. *)
Theorem constructor_idempotent config m :
  constructor config = inr m →
  constructor (VObj (options m)) = inr m.
Proof.
  intros Hm.
  destruct (initial_options config) as [e|o] eqn:Ho.
  { unfold constructor in Hm. by rewrite Ho in Hm. }
  pose proof (initial_options_plain _ _ Ho) as Hs.
  rewrite (constructor_run _ _ Ho) in Hm. injection Hm as <-. cbn [options].
  assert (is_Some (o !! "appletId")) as Hid.
  { destruct config; try done.
    - cbn in Ho. injection Ho as <-. by rewrite lookup_insert_eq.
    - by apply initial_options_VObj in Ho as (-> & ? & _). }
  rewrite (constructor_run _ (defaults_after (acceptTags_after o))).
  - rewrite acceptTags_after_defaults_after, defaults_after_fixed; [done|..].
    + intros k d Hk. by apply (defaults_after_or_truthy _ k d).
    + intros k d Hk. by rewrite (defaults_after_own _ _ _ Hk).
  - apply initial_options_record.
    + rewrite defaults_after_keeps by auto. by rewrite acceptTags_after_other.
    + rewrite defaults_after_keeps by auto. by rewrite acceptTags_after_other.
Qed.

Section Properties.

Context (JSON_parse : string → option value) (JSON_stringify : value → value).


(** ** Listeners and methods *)

(** Steps through the binds of a computation applied to a world. *)
Ltac exec :=
  unfold trace_of, world_of, result_of;
  repeat (progress (
    unfold on_connectFailed, on_connect, on_error, on_close, on_message,
      connect, disconnect, sendWB, fire, run_callback, wb_connect,
      reconnect_if_enabled, this_wb, connection_connected, setTimeout,
      member, has_index, mbind, M_bind, mret, M_ret, bind, ret,
      throw, call, read, write in *; cbn in *)).

Lemma sendWB_not_open w cl sendMsg :
  wb (this w) = Some cl →
  connection_open w = false →
  sendWB JSON_stringify sendMsg w =
    (w, [Emit Manager "sendError" (VStr "websocket bridge not connected")], inr tt).
Proof.
  unfold connection_open. intros Hwb. exec. rewrite Hwb. cbn.
  destruct (connection cl) as [c|]; [|done]. cbn. by intros ->.
Qed.

Lemma sendWB_open w cl c sendMsg :
  wb (this w) = Some cl → connection cl = Some c →
  connected w !! c = Some true →
  sendWB JSON_stringify sendMsg w = (w, [Send c (JSON_stringify sendMsg)], inr tt).
Proof. intros Hwb Hc Ho. exec. by rewrite Hwb, Hc, Ho. Qed.

(** C2: on an instance whose [connect()] was never called, [this.wb] is
    undefined and [sendWB] throws a TypeError while reading
    [this.wb.connection]: nothing is emitted and nothing is written. *)
Theorem sendWB_before_connect config m sendMsg :
  constructor config = inr m →
  connection_open (new_world m) = false ∧
  sendWB JSON_stringify sendMsg (new_world m) = (new_world m, [], inl TypeError).
Proof.
  intros (o & _ & _ & Hwb)%constructor_inr.
  unfold connection_open. exec. by rewrite Hwb.
Qed.

(** C7: the error listener emits [connectionError] on the connection it
    is attached to, not on the instance: the subscribers of the instance
    receive nothing.  The state is left as it was. *)
Theorem on_error_emits_on_connection c err w :
  on_error c err w =
    (w, [Emit (Connection c) "connectionError" (VStr err)], inr tt) ∧
  filter (is_manager_event "connectionError")
    (trace_of (on_error c err w)) = [].
Proof. done. Qed.

(** *** The tag filter *)

Lemma strict_equals_VStr y t :
  strict_equals y (VStr t) = true ↔ y = VStr t.
Proof.
  destruct y; cbn; try (split; [done|intros [=]]).
  rewrite String.eqb_eq. split; [by intros ->|by intros [= ->]].
Qed.

Lemma indexOf_from_ge i l x :
  indexOf_from i l x = -1 ∨ i ≤ indexOf_from i l x.
Proof.
  revert i. induction l as [|y l IH]; intros i; cbn; [by left|].
  destruct (strict_equals y x); [right; lia|].
  destruct (IH (i + 1)); [by left|right; lia].
Qed.

Lemma indexOf_from_found i l x :
  0 ≤ i →
  indexOf_from i l x ≠ -1 ↔ ∃ y, y ∈ l ∧ strict_equals y x = true.
Proof.
  revert i. induction l as [|y l IH]; intros i Hi; cbn.
  - split; [done|]. intros (y & Hy & _). by apply elem_of_nil in Hy.
  - destruct (strict_equals y x) eqn:E.
    + split; [|lia]. intros _. exists y. split; [left|done].
    + rewrite IH by lia. split.
      * intros (z & Hz & Ez). exists z. split; [by right|done].
      * intros (z & Hz & Ez). apply elem_of_cons in Hz as [->|Hz];
          [congruence|by exists z].
Qed.

Lemma indexOf_VStr l t :
  negb (indexOf l (VStr t) =? -1) = true ↔ VStr t ∈ l.
Proof.
  rewrite negb_true_iff, Z.eqb_neq. unfold indexOf.
  rewrite indexOf_from_found by lia. split.
  - by intros (y & Hy & ->%strict_equals_VStr).
  - intros H. exists (VStr t). split; [done|]. by apply strict_equals_VStr.
Qed.

(** C1: a text frame that decodes to a record with tag [t] is re-emitted
    as [wbMessage], with the whole decoded record, exactly when [t] is one
    of the accepted tags or is ["all"]; otherwise nothing is emitted. *)
Theorem on_message_filters_by_tag w msg (o : gmap string value) t tags :
  type msg = "utf8" →
  JSON_parse (utf8Data msg) = Some (VObj o) →
  o !! "t" = Some (VStr t) →
  get (options (this w)) "acceptTags" = VArr tags →
  let r := on_message JSON_parse msg w in
  world_of r = w ∧ result_of r = inr tt ∧
  (VStr t ∈ tags ∨ t = "all" →
     trace_of r = [Emit Manager "wbMessage" (VObj o)]) ∧
  (¬ (VStr t ∈ tags ∨ t = "all") → trace_of r = []).
Proof.
  intros Hty Hp Ht Ha. exec. rewrite Hty, Hp. cbn.
  rewrite Ha. cbn. unfold get. rewrite Ht. cbn.
  destruct (negb (indexOf tags (VStr t) =? -1)) eqn:Hi; cbn.
  - apply indexOf_VStr in Hi. do 3 (split; [done|]). intros []. by left.
  - assert (¬ VStr t ∈ tags) as Hn.
    { intros Hin%indexOf_VStr. congruence. }
    destruct (String.eqb t "all") eqn:He; cbn.
    + apply String.eqb_eq in He. do 3 (split; [done|]). intros []. by right.
    + apply String.eqb_neq in He. do 2 (split; [done|]).
      split; [by intros [|]|done].
Qed.

(** *** The handshake *)

(** C4: the connect listener begins by sending the authentication
    request [{t: 'authapp', p: {user, pass, accept}}] built from the
    configured [authUser], [authPass] and [acceptTags]; this is its only
    write, and the [connection] event comes after it. *)
Theorem on_connect_authenticates_first c w :
  let o := options (this w) in
  let request :=
    VObj {[ "t" := VStr "authapp";
            "p" := VObj {[ "user" := get o "authUser";
                           "pass" := get o "authPass";
                           "accept" := get o "acceptTags" ]} ]} in
  trace_of (on_connect JSON_stringify c w) =
    (SendUTF c (JSON_stringify request)
     :: On (Connection c) "error"
     :: On (Connection c) "close"
     :: match wb (this w) with
        | Some _ =>
            [ Emit Manager "connection" (VStr "websocket bridge connected");
              On (Connection c) "message" ]
        | None => []
        end)%list ∧
  filter is_network_write (trace_of (on_connect JSON_stringify c w)) =
    [SendUTF c (JSON_stringify request)].
Proof.
  exec. destruct (wb (this w)); cbn; done.
Qed.

(** *** Runs *)

(** Nothing writes [this.options] after construction. *)
Lemma step_options i w :
  options (this (world_of (step JSON_parse JSON_stringify i w))) = options (this w).
Proof.
  destruct w as [[o b d1 d2 a [cl|]] cn tm], i; exec;
    repeat case_match; simplify_eq; exec; try done.
Qed.

Lemma run_options ins w :
  options (this (fst (run JSON_parse JSON_stringify ins w))) = options (this w).
Proof.
  revert w. induction ins as [|i ins IH]; intros w; cbn; [done|].
  by rewrite IH, step_options.
Qed.

(** With [autoReconnect] falsy no listener or method arms a timer, and
    with no timer pending only [connect()] asks for a connection. *)
Lemma step_no_timer i w :
  truthy (get (options (this w)) "autoReconnect") = false →
  timers w = [] →
  timers (world_of (step JSON_parse JSON_stringify i w)) = [].
Proof.
  destruct w as [[o b d1 d2 a [cl|]] cn tm], i; cbn; intros Hr ->; exec;
    rewrite ?Hr; repeat case_match; simplify_eq; exec; try done.
Qed.

Lemma step_no_attempt i w :
  timers w = [] →
  i ≠ Call_connect →
  filter is_connect_attempt (trace_of (step JSON_parse JSON_stringify i w)) = [].
Proof.
  destruct w as [[o b d1 d2 a [cl|]] cn tm], i; cbn; intros -> Hi; exec;
    repeat case_match; simplify_eq; exec; try done.
Qed.

Lemma run_no_timer ins w :
  truthy (get (options (this w)) "autoReconnect") = false →
  timers w = [] →
  timers (fst (run JSON_parse JSON_stringify ins w)) = [].
Proof.
  revert w. induction ins as [|i ins IH]; intros w Hr Ht; cbn; [done|].
  apply IH; [by rewrite step_options|by apply step_no_timer].
Qed.

Lemma run_no_attempt ins w :
  truthy (get (options (this w)) "autoReconnect") = false →
  timers w = [] →
  Forall (λ i, i ≠ Call_connect) ins →
  filter is_connect_attempt (snd (run JSON_parse JSON_stringify ins w)) = [].
Proof.
  intros Hr Ht Hins. revert w Hr Ht.
  induction Hins as [|i ins Hi _ IH]; intros w Hr Ht; cbn; [done|].
  rewrite filter_app, step_no_attempt by done. cbn.
  apply IH; [by rewrite step_options|by apply step_no_timer].
Qed.

(** *** Close and reconnection *)

Lemma on_close_run webSocketPrefix w :
  on_close webSocketPrefix w =
    let o := options (this w) in
    let closed :=
      Emit Manager "connectionClose" (VStr "websocket bridge connection closed") in
    let this' := set_websocketBridgeConnected false (this w) in
    if truthy (get o "autoReconnect")
    then ({| this := this'; connected := connected w;
             timers := (timers w
                          ++ [(Reconnect webSocketPrefix, get o "reconnectionTimer")])%list |},
          [closed; SetTimeout (Reconnect webSocketPrefix) (get o "reconnectionTimer")],
          inr tt)
    else ({| this := this'; connected := connected w; timers := timers w |},
          [closed], inr tt).
Proof. exec. by destruct (truthy _). Qed.

Lemma connect_trace w :
  trace_of (connect w) =
    let o := options (this w) in
    [ ClientConnect (requestedUrl (webSocketPrefix_of o) o)
        (get o "websocketBridgeSubProtocol") (get o "websocketBridgeOrigin");
      On Client "connectFailed";
      On Client "connect" ].
Proof. by exec. Qed.

Lemma fire_last cb delay w :
  trace_of (fire (length (timers w))
              {| this := this w; connected := connected w;
                 timers := (timers w ++ [(cb, delay)])%list |}) =
  trace_of (run_callback cb w).
Proof.
  unfold fire. cbn [timers]. rewrite list_lookup_middle by done.
  destruct cb as [p]. exec. by destruct (wb (this w)).
Qed.

(** C3: when the connection closes, the instance emits [connectionClose].
    With [autoReconnect] truthy it arms exactly one timer, with delay
    [reconnectionTimer], and that timer asks the client for the very
    connection [connect()] asks for (same URL, sub-protocol and origin).
    With [autoReconnect] falsy it arms none, and whatever happens next the
    client is asked for no connection as long as [connect()] is not
    called. *)
Theorem on_close_reconnects config m ins :
  constructor config = inr m →
  let o := options m in
  let webSocketPrefix := webSocketPrefix_of o in
  let w := fst (run JSON_parse JSON_stringify ins (new_world m)) in
  is_Some (wb (this w)) →
  let r := on_close webSocketPrefix w in
  let closed :=
    Emit Manager "connectionClose" (VStr "websocket bridge connection closed") in
  let retry := (Reconnect webSocketPrefix, get o "reconnectionTimer") in
  let attempt :=
    ClientConnect (requestedUrl webSocketPrefix o)
      (get o "websocketBridgeSubProtocol") (get o "websocketBridgeOrigin") in
  result_of r = inr tt ∧
  websocketBridgeConnected (this (world_of r)) = false ∧
  head (trace_of (connect w)) = Some attempt ∧
  if truthy (get o "autoReconnect") then
    trace_of r = [closed; SetTimeout retry.1 retry.2] ∧
    timers (world_of r) = (timers w ++ [retry])%list ∧
    trace_of (fire (length (timers w)) (world_of r)) = [attempt]
  else
    trace_of r = [closed] ∧
    timers (world_of r) = [] ∧
    ∀ rest, Forall (λ i, i ≠ Call_connect) rest →
            filter is_connect_attempt (snd (run JSON_parse JSON_stringify rest (world_of r))) = [].
Proof.
  intros Hm o webSocketPrefix w Hwb r closed retry attempt.
  assert (options (this w) = o) as Ho by apply run_options.
  subst r. rewrite on_close_run, connect_trace. cbv zeta. rewrite Ho.
  fold webSocketPrefix attempt closed.
  destruct (truthy (get o "autoReconnect")) eqn:Hr; cbn.
  - do 3 (split; [done|]). do 2 (split; [done|]).
    unfold world_of. cbn.
    pose proof (fire_last (Reconnect webSocketPrefix) (get o "reconnectionTimer")
                  {| this := set_websocketBridgeConnected false (this w);
                     connected := connected w; timers := timers w |}) as Hf.
    cbn [this connected timers] in Hf. rewrite Hf.
    destruct Hwb as [cl Hcl]. exec. rewrite Hcl. cbn. by rewrite Ho.
  - assert (timers w = []) as Ht by (by apply run_no_timer).
    do 3 (split; [done|]). split; [done|]. split; [done|].
    intros rest Hrest. apply run_no_attempt; [by cbn; rewrite Ho|done|done].
Qed.

(** *** A missing set of accepted tags *)

(** C10 (amended): when [accepts] is supplied and is neither a string nor
    a list, in a record with [appletId] and without an own
    [hasOwnProperty], construction succeeds and assigns no [acceptTags]:
    the property stays as the caller's record has it.  When the record has
    none it is [undefined], and from then on every text frame that decodes
    makes the message listener call [indexOf] on [undefined], which throws
    a TypeError before anything is emitted. *)
Theorem constructor_leaves_acceptTags_unset
    (o : gmap string value) v ins msg rcvMsg :
  is_Some (o !! "appletId") →
  o !! "hasOwnProperty" = None →
  o !! "accepts" = Some v →
  is_string_or_array v = false →
  type msg = "utf8" →
  JSON_parse (utf8Data msg) = Some rcvMsg →
  ∃ m, constructor (VObj o) = inr m ∧
    options m !! "acceptTags" = o !! "acceptTags" ∧
    (o !! "acceptTags" = None →
       get (options m) "acceptTags" = VUndef ∧
       let w := fst (run JSON_parse JSON_stringify ins (new_world m)) in
       on_message JSON_parse msg w = (w, [], inl TypeError)).
Proof.
  intros Hid Hs Ha Hv Hty Hp.
  destruct (constructor_record o Hid Hs) as (m & Hm & _). exists m.
  pose proof (constructor_acceptTags_lookup _ _ Hm) as Ht.
  cbn in Ht. rewrite Ha in Ht.
  assert (options m !! "acceptTags" = o !! "acceptTags") as Hsame
    by (by destruct v).
  split; [done|]. split; [done|]. intros Hno. rewrite Hno in Hsame.
  unfold get at 1. rewrite Hsame.
  split; [done|]. cbv zeta. set (w := fst (run JSON_parse JSON_stringify ins (new_world m))).
  assert (get (options (this w)) "acceptTags" = VUndef) as Hw.
  { subst w. rewrite run_options. cbn. unfold get. by rewrite Hsame. }
  clearbody w. unfold on_message. rewrite Hty, Hp. cbn. exec.
  destruct rcvMsg; cbn; rewrite ?Hw; done.
Qed.

(** ** More on the methods and listeners *)

(** *** Connecting *)

Lemma connect_run w :
  connect w =
    ({| this := set_wb {| connection := None |} (this w);
        connected := connected w; timers := timers w |},
     [ target (options (this w)); On Client "connectFailed"; On Client "connect" ],
     inr tt).
Proof. by exec. Qed.

Lemma target_of_record (o : gmap string value) :
  target (defaults_after (acceptTags_after o)) =
    ClientConnect
      ((if truthy (default SECURE_WEBSOCKET (o !! "secureWebSocket"))
        then "wss://" else "ws://")
         ++ to_string (js_or (get o "websocketBridgeUri") WEBSOCKETBRIDGE_URI)
         ++ ":"
         ++ to_string (js_or (get o "websocketBridgePort") WEBSOCKETBRIDGE_PORT)
         ++ "/")
      (js_or (get o "websocketBridgeSubProtocol") WEBSOCKETBRIDGE_SUBPROTOCOL)
      (js_or (get o "websocketBridgeOrigin") WEBSOCKETBRIDGE_ORIGIN).
Proof.
  unfold target, requestedUrl, webSocketPrefix_of, get.
  rewrite (defaults_after_own _ "secureWebSocket" SECURE_WEBSOCKET)
    by apply list_elem_of_further, list_elem_of_here.
  rewrite (defaults_after_or _ "websocketBridgeUri" WEBSOCKETBRIDGE_URI),
    (defaults_after_or _ "websocketBridgePort" WEBSOCKETBRIDGE_PORT),
    (defaults_after_or _ "websocketBridgeSubProtocol" WEBSOCKETBRIDGE_SUBPROTOCOL),
    (defaults_after_or _ "websocketBridgeOrigin" WEBSOCKETBRIDGE_ORIGIN)
    by (unfold or_defaults; rewrite !elem_of_cons; naive_solver).
  unfold get. by rewrite !acceptTags_after_other by done.
Qed.

(** X5: whenever [connect()] is called on an instance constructed from a
    record whose host and port (the supplied ones when truthy, the defaults
    otherwise) are strings or integers below [2^53], it asks the client
    once, for [scheme://host:port/]: the scheme is [ws://] exactly when a
    falsy [secureWebSocket] was supplied, and host, port, sub-protocol and
    origin are the supplied values when truthy, the defaults otherwise. *)
Theorem connect_target_of_record (o : gmap string value) m ins :
  constructor (VObj o) = inr m →
  prints_plainly (js_or (get o "websocketBridgeUri") WEBSOCKETBRIDGE_URI) = true →
  prints_plainly (js_or (get o "websocketBridgePort") WEBSOCKETBRIDGE_PORT) = true →
  let w := fst (run JSON_parse JSON_stringify ins (new_world m)) in
  filter is_connect_attempt (trace_of (connect w)) =
    [ ClientConnect
        ((if truthy (default SECURE_WEBSOCKET (o !! "secureWebSocket"))
          then "wss://" else "ws://")
           ++ to_string (js_or (get o "websocketBridgeUri") WEBSOCKETBRIDGE_URI)
           ++ ":"
           ++ to_string (js_or (get o "websocketBridgePort") WEBSOCKETBRIDGE_PORT)
           ++ "/")
        (js_or (get o "websocketBridgeSubProtocol") WEBSOCKETBRIDGE_SUBPROTOCOL)
        (js_or (get o "websocketBridgeOrigin") WEBSOCKETBRIDGE_ORIGIN) ].
Proof.
  intros (Ho & _ & _)%constructor_VObj _ _. cbv zeta. rewrite connect_run.
  unfold trace_of. cbn [fst snd].
  rewrite run_options. cbn [new_world this]. rewrite Ho, target_of_record.
  done.
Qed.

(** X4: an instance built from a bare identifier asks, whenever
    [connect()] is called, for [wss://127.0.0.1:444/] with sub-protocol
    [wb.iotransit.net] and origin [bridge]. *)
Theorem connect_target_of_string s ins :
  ∃ m, constructor (VStr s) = inr m ∧
    let w := fst (run JSON_parse JSON_stringify ins (new_world m)) in
    filter is_connect_attempt (trace_of (connect w)) =
      [ ClientConnect "wss://127.0.0.1:444/" (VStr "wb.iotransit.net") (VStr "bridge") ].
Proof.
  eexists. split; [reflexivity|]. cbv zeta. rewrite connect_run.
  unfold trace_of. cbn [fst snd]. rewrite run_options. done.
Qed.

(** *** Sending *)

(** X6: [connect()] installs a client without a connection: a
    [sendWB] that follows it, in whatever state it was called, emits one
    [sendError] and writes nothing. *)
Theorem sendWB_after_connect w sendMsg :
  let w' := world_of (connect w) in
  sendWB JSON_stringify sendMsg w' =
    (w', [Emit Manager "sendError" (VStr "websocket bridge not connected")], inr tt).
Proof. by exec. Qed.

(** X7: [sendWB] leaves the state as it is, makes at most one call, and
    writes to the network exactly when [this.wb.connection] is there with
    its [connected] property true. *)
Theorem sendWB_writes_iff_open w sendMsg :
  let r := sendWB JSON_stringify sendMsg w in
  world_of r = w ∧
  (length (trace_of r) ≤ 1)%nat ∧
  (filter is_network_write (trace_of r) ≠ [] ↔ connection_open w = true).
Proof.
  unfold connection_open. exec.
  destruct (wb (this w)) as [[[c|]]|]; cbn;
    [destruct (default false (connected w !! c)); cbn|..];
    repeat split; try lia; try done; by intros H.
Qed.

(** X8: once the connect listener has taken a connection whose
    [connected] property is true, [sendWB] of a message that
    [JSON.stringify] turns into text writes that text to that connection
    and emits nothing. *)
Theorem sendWB_after_handshake w c sendMsg data :
  is_Some (wb (this w)) →
  connected w !! c = Some true →
  JSON_stringify sendMsg = VStr data →
  let w' := world_of (on_connect JSON_stringify c w) in
  sendWB JSON_stringify sendMsg w' = (w', [Send c (VStr data)], inr tt).
Proof.
  intros [cl Hcl] Hc Hd. exec. rewrite Hcl. cbn. by rewrite Hc, Hd.
Qed.

(** *** Disconnecting *)

(** X9: after the connect listener has run, the instance counts as
    connected and [disconnect()] calls [drop()] on exactly the connection
    the listener received.  Once the close that [drop()] emits has been
    handled, [connectionClose] has been emitted, the instance no longer
    counts as connected, and one reconnection is armed when [autoReconnect]
    is truthy, none otherwise. *)
Theorem disconnect_after_handshake w c webSocketPrefix :
  is_Some (wb (this w)) →
  let o := options (this w) in
  let w' := world_of (on_connect JSON_stringify c w) in
  let r := run JSON_parse JSON_stringify
             [ Call_disconnect; Transport_sets_connected c false;
               Connection_close webSocketPrefix ] w' in
  websocketBridgeConnected (this w') = true ∧
  snd r =
    (Drop c
     :: Emit Manager "connectionClose" (VStr "websocket bridge connection closed")
     :: (if truthy (get o "autoReconnect")
         then [SetTimeout (Reconnect webSocketPrefix) (get o "reconnectionTimer")]
         else []))%list ∧
  websocketBridgeConnected (this (fst r)) = false.
Proof.
  intros [cl Hcl]. cbv zeta. cbn [run]. exec. rewrite Hcl. cbn.
  by destruct (truthy (get (options (this w)) "autoReconnect")).
Qed.

(** X10: [disconnect()] does nothing on a fresh instance, after the close
    listener and after the connectFailed listener: no call, no exception,
    and a pending reconnection is left pending. *)
Theorem disconnect_when_not_connected config webSocketPrefix err w :
  match constructor config with
  | inr m => disconnect (new_world m) = (new_world m, [], inr tt)
  | inl _ => True
  end ∧
  (let w' := world_of (on_close webSocketPrefix w) in
   disconnect w' = (w', [], inr tt)) ∧
  (let w' := world_of (on_connectFailed webSocketPrefix err w) in
   disconnect w' = (w', [], inr tt)).
Proof.
  split; [|split].
  - destruct (initial_options config) as [e|o] eqn:Ho.
    + unfold constructor. by rewrite Ho.
    + by rewrite (constructor_run _ _ Ho).
  - exec. by destruct (truthy _).
  - exec. by destruct (truthy _).
Qed.

(** X11: [connect()] does not reset [websocketBridgeConnected].  Called on
    a connected instance it installs a client without a connection, and a
    [disconnect()] that follows throws a TypeError on
    [this.wb.connection.drop]. *)
Theorem disconnect_after_second_connect w :
  websocketBridgeConnected (this w) = true →
  let w' := world_of (connect w) in
  disconnect w' = (w', [], inl TypeError).
Proof. intros H. exec. by rewrite H. Qed.

(** *** Frames *)

(** X12: a frame that is not text is never delivered: a binary frame is
    logged with its length in bytes, any other type is ignored; nothing is
    thrown and the state is unchanged. *)
Theorem on_message_other_frames msg w :
  type msg ≠ "utf8" →
  on_message JSON_parse msg w =
    (w,
     if String.eqb (type msg) "binary"
     then [ConsoleLog ("websocket bridge client received a binary of "
                         ++ pretty (Z.of_nat (length (binaryData msg))) ++ " bytes")]
     else [],
     inr tt).
Proof.
  intros H%String.eqb_neq. unfold on_message. rewrite H.
  by destruct (String.eqb (type msg) "binary").
Qed.

Lemma indexOf_from_accepts_tag i tags tag :
  0 ≤ i →
  negb (indexOf_from i tags tag =? -1) = accepts_tag tags tag.
Proof.
  unfold accepts_tag. revert i.
  induction tags as [|y tags IH]; intros i Hi; cbn; [done|].
  destruct (strict_equals y tag); cbn.
  - destruct (Z.eqb_spec i (-1)); [lia|done].
  - apply IH. lia.
Qed.

Lemma indexOf_accepts_tag tags tag :
  negb (indexOf tags tag =? -1) = accepts_tag tags tag.
Proof. by apply indexOf_from_accepts_tag. Qed.

(** X13: for any decoded value other than [null], whatever its tag is (a
    string, a number, missing), the frame is re-emitted exactly when some
    accepted tag is strictly equal to the tag or the tag is ['all']. *)
Theorem on_message_filters_any_value w msg rcvMsg tags :
  type msg = "utf8" →
  JSON_parse (utf8Data msg) = Some rcvMsg →
  rcvMsg ≠ VNull → rcvMsg ≠ VUndef →
  get (options (this w)) "acceptTags" = VArr tags →
  on_message JSON_parse msg w =
    (w,
     if accepts_tag tags (tag_of rcvMsg) || strict_equals (tag_of rcvMsg) (VStr "all")
     then [Emit Manager "wbMessage" rcvMsg]
     else [],
     inr tt).
Proof.
  intros Hty Hp Hnull Hundef Ha. unfold on_message. rewrite Hty, Hp. cbn.
  exec. destruct rcvMsg; try done; cbn; rewrite Ha; cbn;
    rewrite indexOf_accepts_tag; by destruct (accepts_tag _ _ || _).
Qed.

Lemma accepts_tag_strings tags :
  (∀ y, y ∈ tags → ∃ s, y = VStr s) →
  accepts_tag tags VUndef = false.
Proof.
  unfold accepts_tag. induction tags as [|y tags IH]; intros H; cbn; [done|].
  destruct (H y) as [s ->]; [left|]. cbn. apply IH.
  intros z Hz. apply H. by right.
Qed.

(** X14: when the accepted tags are strings, a frame that decodes to a
    record without [t], or to a number, a string, a boolean or an array, is
    dropped without an event and without an exception. *)
Theorem on_message_drops_untagged w msg rcvMsg tags :
  type msg = "utf8" →
  JSON_parse (utf8Data msg) = Some rcvMsg →
  rcvMsg ≠ VNull → rcvMsg ≠ VUndef →
  tag_of rcvMsg = VUndef →
  get (options (this w)) "acceptTags" = VArr tags →
  (∀ y, y ∈ tags → ∃ s, y = VStr s) →
  on_message JSON_parse msg w = (w, [], inr tt).
Proof.
  intros Hty Hp Hnull Hundef Ht Ha Hs. unfold on_message. rewrite Hty, Hp. cbn.
  exec. destruct rcvMsg; try done; cbn in *; rewrite Ha; cbn;
    rewrite ?Ht, indexOf_accepts_tag, accepts_tag_strings by done; done.
Qed.

(** X15: text that does not parse makes the message listener throw the
    SyntaxError of [JSON.parse]; text that decodes to [null] makes it throw
    a TypeError on [rcvMsg.t].  In both cases nothing is emitted. *)
Theorem on_message_decode_errors msg w :
  type msg = "utf8" →
  match JSON_parse (utf8Data msg) with
  | None => on_message JSON_parse msg w = (w, [], inl SyntaxError)
  | Some VNull => on_message JSON_parse msg w = (w, [], inl TypeError)
  | Some _ => True
  end.
Proof.
  intros Hty. unfold on_message. rewrite Hty. cbn.
  by destruct (JSON_parse (utf8Data msg)) as [[]|].
Qed.

(** X16: the message listener never changes the state and makes at most
    one call: a [console.log] for a binary frame, or the [wbMessage] event
    carrying the value decoded from a text frame. *)
Theorem on_message_at_most_one_event msg w :
  let r := on_message JSON_parse msg w in
  world_of r = w ∧
  (length (trace_of r) ≤ 1)%nat ∧
  ∀ e, e ∈ trace_of r →
       (∃ text, e = ConsoleLog text ∧ type msg = "binary") ∨
       (∃ rcvMsg, e = Emit Manager "wbMessage" rcvMsg ∧ type msg = "utf8" ∧
                  JSON_parse (utf8Data msg) = Some rcvMsg).
Proof.
  unfold on_message.
  destruct (String.eqb_spec (type msg) "utf8") as [Hu|Hu].
  - destruct (JSON_parse (utf8Data msg)) as [rcvMsg|]; exec.
    + destruct rcvMsg; cbn;
        destruct (get (options (this w)) "acceptTags"); cbn;
        try (repeat split; (done || lia || by intros e ?%elem_of_nil));
        match goal with |- context [if ?b then _ else _] => destruct b end; cbn;
        repeat split; try done; try lia; try (by intros e ?%elem_of_nil);
        intros e ->%list_elem_of_singleton; right; eauto.
    + repeat split; [lia|]. by intros e ?%elem_of_nil.
  - destruct (String.eqb_spec (type msg) "binary") as [Hb|Hb]; exec.
    + repeat split; [lia|]. intros e ->%list_elem_of_singleton. left. eauto.
    + repeat split; [lia|]. by intros e ?%elem_of_nil.
Qed.

(** *** Invariants of runs *)

Lemma step_fixed_fields i w :
  let t := this w in
  let t' := this (world_of (step JSON_parse JSON_stringify i w)) in
  options t' = options t ∧ authDevice t' = authDevice t ∧
  authDomain t' = authDomain t ∧ authenticated t' = authenticated t.
Proof.
  destruct w as [[o b d1 d2 a [cl|]] cn tm], i; exec;
    repeat case_match; simplify_eq; exec; try done.
Qed.

(** X17: whatever happens to an instance, its [options], [authDevice],
    [authDomain] and [authenticated] stay as they were: only [wb] and
    [websocketBridgeConnected] are ever written. *)
Theorem run_changes_only_connection_state ins w :
  let t := this w in
  let t' := this (fst (run JSON_parse JSON_stringify ins w)) in
  options t' = options t ∧ authDevice t' = authDevice t ∧
  authDomain t' = authDomain t ∧ authenticated t' = authenticated t.
Proof.
  revert w. induction ins as [|i ins IH]; intros w; cbn; [done|].
  destruct (IH (world_of (step JSON_parse JSON_stringify i w))) as (-> & -> & -> & ->).
  apply step_fixed_fields.
Qed.

Lemma step_keeps_timers i w :
  is_timer_fires i = false →
  timers w `prefix_of` timers (world_of (step JSON_parse JSON_stringify i w)).
Proof.
  destruct w as [[o b d1 d2 a [cl|]] cn tm], i; cbn; intros Hi; try done; exec;
    repeat case_match; simplify_eq; exec;
    try done; by apply prefix_app_r.
Qed.

(** X19: nothing but its own firing removes a pending timer: neither
    [disconnect()] nor [connect()] nor any listener cancels a scheduled
    reconnection. *)
Theorem run_never_cancels_timers ins w :
  Forall (λ i, is_timer_fires i = false) ins →
  timers w `prefix_of` timers (fst (run JSON_parse JSON_stringify ins w)).
Proof.
  intros Hins. revert w. induction Hins as [|i ins Hi _ IH]; intros w; cbn; [done|].
  etrans; [by apply step_keeps_timers|apply IH].
Qed.

Lemma step_manager_events i w ev arg :
  Emit Manager ev arg ∈ trace_of (step JSON_parse JSON_stringify i w) →
  ev ∈ manager_events.
Proof.
  destruct w as [[o b d1 d2 a [cl|]] cn tm], i; exec;
    repeat case_match; simplify_eq; exec;
    rewrite ?elem_of_cons, ?elem_of_nil; intros Hin; destruct_or?; simplify_eq;
    try done; unfold manager_events; repeat constructor.
Qed.

(** X20: in every run the events emitted on the instance are among
    [connectionFailed], [connection], [connectionClose], [wbMessage] and
    [sendError]. *)
Theorem run_manager_events ins w ev arg :
  Emit Manager ev arg ∈ snd (run JSON_parse JSON_stringify ins w) →
  ev ∈ manager_events.
Proof.
  revert w. induction ins as [|i ins IH]; intros w; cbn.
  - by intros ?%elem_of_nil.
  - intros [H|H]%elem_of_app; [by eapply step_manager_events|by eapply IH].
Qed.

(** *** Refused attempts *)

Lemma refusal_round webSocketPrefix err w cl :
  wb (this w) = Some cl →
  timers w = [] →
  truthy (get (options (this w)) "autoReconnect") = true →
  run JSON_parse JSON_stringify
    [Client_connectFailed webSocketPrefix err; Timer_fires 0] w =
    ({| this := set_websocketBridgeConnected false (this w);
        connected := connected w; timers := [] |},
     [ Emit Manager "connectionFailed" (VStr err);
       SetTimeout (Reconnect webSocketPrefix)
         (get (options (this w)) "reconnectionTimer");
       ClientConnect (requestedUrl webSocketPrefix (options (this w)))
         (get (options (this w)) "websocketBridgeSubProtocol")
         (get (options (this w)) "websocketBridgeOrigin") ]).
Proof.
  intros Hwb Ht Hr. destruct w as [t cn tm]. cbn in *. subst tm.
  exec. rewrite Hr. cbn. rewrite Hwb. done.
Qed.

Lemma run_app ins1 ins2 w :
  run JSON_parse JSON_stringify (ins1 ++ ins2) w =
    let r1 := run JSON_parse JSON_stringify ins1 w in
    let r2 := run JSON_parse JSON_stringify ins2 (fst r1) in
    (fst r2, (snd r1 ++ snd r2)%list).
Proof.
  revert w. induction ins1 as [|i ins1 IH]; intros w; cbn.
  - by destruct (run _ _ ins2 w).
  - rewrite IH. cbn. by rewrite app_assoc.
Qed.

Lemma refusals_run webSocketPrefix err n w cl :
  wb (this w) = Some cl →
  timers w = [] →
  truthy (get (options (this w)) "autoReconnect") = true →
  let r := run JSON_parse JSON_stringify (refusals webSocketPrefix err n) w in
  snd r =
    mjoin (replicate n
      [ Emit Manager "connectionFailed" (VStr err);
        SetTimeout (Reconnect webSocketPrefix)
          (get (options (this w)) "reconnectionTimer");
        ClientConnect (requestedUrl webSocketPrefix (options (this w)))
          (get (options (this w)) "websocketBridgeSubProtocol")
          (get (options (this w)) "websocketBridgeOrigin") ]) ∧
  timers (fst r) = [].
Proof.
  revert w. induction n as [|n IH]; intros w Hwb Ht Hr; [done|].
  cbv zeta. change (refusals webSocketPrefix err (S n))
    with ([Client_connectFailed webSocketPrefix err; Timer_fires 0]
            ++ refusals webSocketPrefix err n)%list.
  rewrite run_app, (refusal_round webSocketPrefix err w cl Hwb Ht Hr).
  cbv zeta. cbn [fst snd].
  edestruct (IH {| this := set_websocketBridgeConnected false (this w);
                   connected := connected w; timers := [] |}) as [Hs Hf];
    [done..|].
  rewrite Hs. split; [done|exact Hf].
Qed.

(** X18: with [autoReconnect] truthy, [connect()] followed by [n] refused
    attempts yields [n + 1] requests for the same target: each refusal emits
    [connectionFailed] and arms one timer with delay [reconnectionTimer],
    and no timer is left pending after it has fired. *)
Theorem refused_attempts_are_retried config m err n :
  constructor config = inr m →
  truthy (get (options m) "autoReconnect") = true →
  let o := options m in
  let r := run JSON_parse JSON_stringify
             (Call_connect :: refusals (webSocketPrefix_of o) err n) (new_world m) in
  snd r =
    ([ target o; On Client "connectFailed"; On Client "connect" ]
       ++ mjoin (replicate n
            [ Emit Manager "connectionFailed" (VStr err);
              SetTimeout (Reconnect (webSocketPrefix_of o)) (get o "reconnectionTimer");
              target o ]))%list ∧
  timers (fst r) = [].
Proof.
  intros Hm Hr o r. subst r. cbn [run].
  rewrite connect_run. unfold world_of, trace_of. cbn [fst snd].
  edestruct (refusals_run (webSocketPrefix_of o) err n) as [Hs Hf];
    [| | |rewrite Hs; split; [reflexivity|exact Hf]]; done.
Qed.

(** *** What the handshake announces *)

(** X21: at every handshake of an instance constructed from a record whose
    [accepts] is a list, in whatever state, the request carries that list,
    and the supplied credentials when truthy, the default ones otherwise. *)
Theorem handshake_announces_configuration (o : gmap string value) m l ins c :
  constructor (VObj o) = inr m →
  o !! "accepts" = Some (VArr l) →
  let w := fst (run JSON_parse JSON_stringify ins (new_world m)) in
  head (trace_of (on_connect JSON_stringify c w)) =
    Some (SendUTF c (JSON_stringify
      (VObj {[ "t" := VStr "authapp";
               "p" := VObj {[ "user" := js_or (get o "authUser") AUTH_USER;
                              "pass" := js_or (get o "authPass") AUTH_PASS;
                              "accept" := VArr l ]} ]}))).
Proof.
  intros (Ho & _ & _)%constructor_VObj Ha. cbv zeta.
  set (w := fst (run JSON_parse JSON_stringify ins (new_world m))).
  assert (options (this w) = options m) as Hw by apply run_options.
  assert (trace_of (on_connect JSON_stringify c w) =
            SendUTF c (JSON_stringify (authapp (options (this w))))
              :: tail (trace_of (on_connect JSON_stringify c w))) as ->.
  { clearbody w. exec. by destruct (wb (this w)). }
  cbn [head]. rewrite Hw, Ho. unfold authapp, get.
  rewrite (defaults_after_or _ "authUser" AUTH_USER) by apply list_elem_of_here.
  rewrite (defaults_after_or _ "authPass" AUTH_PASS)
    by apply list_elem_of_further, list_elem_of_here.
  rewrite defaults_after_keeps by auto.
  rewrite acceptTags_after_lookup, Ha. cbn.
  unfold get. by rewrite !acceptTags_after_other by done.
Qed.

End Properties.

(** * The statements on the sample deployment *)

Lemma constructor_lights : constructor (VStr "lights") = inr lights_instance.
Proof. vm_compute. reflexivity. Qed.

Lemma lights_connected_acceptTags :
  get (options (this lights_connected)) "acceptTags" = VArr [VStr "lights"].
Proof. vm_compute. reflexivity. Qed.

Lemma on_message_filters_by_tag_witness :
  type (text frame_lights) = "utf8" ∧
  scenario_parse (utf8Data (text frame_lights)) = Some (VObj record_lights) ∧
  record_lights !! "t" = Some (VStr "lights") ∧
  get (options (this lights_connected)) "acceptTags" = VArr [VStr "lights"] ∧
  trace_of (on_message scenario_parse (text frame_lights) lights_connected) =
    [Emit Manager "wbMessage" (VObj record_lights)].
Proof.
  assert (record_lights !! "t" = Some (VStr "lights")) as Ht
    by (vm_compute; reflexivity).
  destruct (on_message_filters_by_tag scenario_parse lights_connected
              (text frame_lights) record_lights "lights" [VStr "lights"]
              eq_refl eq_refl Ht lights_connected_acceptTags)
    as (_ & _ & Hyes & _).
  split; [reflexivity|]. split; [reflexivity|]. split; [exact Ht|].
  split; [exact lights_connected_acceptTags|].
  apply Hyes. left. apply list_elem_of_here.
Defined.

Lemma sendWB_before_connect_witness :
  constructor (VStr "lights") = inr lights_instance ∧
  sendWB scenario_stringify (VObj record_lights) (new_world lights_instance) =
    (new_world lights_instance, [], inl TypeError).
Proof.
  split; [exact constructor_lights|].
  exact (proj2 (sendWB_before_connect scenario_stringify (VStr "lights")
                  lights_instance (VObj record_lights) constructor_lights)).
Defined.

Lemma on_close_reconnects_witness :
  constructor (VStr "lights") = inr lights_instance ∧
  is_Some (wb (this lights_connected)) ∧
  trace_of (on_close "wss://" lights_connected) =
    [ Emit Manager "connectionClose" (VStr "websocket bridge connection closed");
      SetTimeout (Reconnect "wss://") (VNum 5000) ] ∧
  trace_of (fire 0 (world_of (on_close "wss://" lights_connected))) =
    [ ClientConnect "wss://127.0.0.1:444/" (VStr "wb.iotransit.net") (VStr "bridge") ].
Proof.
  assert (is_Some (wb (this lights_connected))) as Hwb
    by (eexists; vm_compute; reflexivity).
  pose proof (on_close_reconnects scenario_parse scenario_stringify
                (VStr "lights") lights_instance
                [Call_connect; Client_connect 1; Transport_sets_connected 1 true]
                constructor_lights Hwb) as H.
  cbv zeta in H. destruct H as (_ & _ & _ & H).
  change (truthy (get (options lights_instance) "autoReconnect")) with true in H.
  destruct H as (Ht & _ & Hf).
  split; [exact constructor_lights|]. split; [exact Hwb|].
  split; [exact Ht|exact Hf].
Defined.



Lemma constructor_merges_defaults_witness :
  let o : gmap string value :=
    {[ "appletId" := VStr "lights"; "authUser" := VStr "kitchen";
       "autoReconnect" := VBool false ]} in
  ∃ m, constructor (VObj o) = inr m ∧
       options m !! "authUser" = Some (VStr "kitchen") ∧
       options m !! "authPass" = Some AUTH_PASS ∧
       options m !! "autoReconnect" = Some (VBool false) ∧
       options m !! "secureWebSocket" = Some SECURE_WEBSOCKET ∧
       options m !! "appletId" = Some (VStr "lights").
Proof.
  intros o.
  destruct (constructor_record o) as (m & Hm & _);
    [eexists; vm_compute; reflexivity|vm_compute; reflexivity|].
  destruct (constructor_merges_defaults o m Hm) as (Hor & Hown & Hother).
  exists m. split; [exact Hm|].
  split; [exact (Hor "authUser" AUTH_USER (list_elem_of_here _ _))|].
  split; [exact (Hor "authPass" AUTH_PASS
                   (list_elem_of_further _ _ _ (list_elem_of_here _ _)))|].
  split; [exact (Hown "autoReconnect" AUTO_RECONNECT (list_elem_of_here _ _))|].
  split; [exact (Hown "secureWebSocket" SECURE_WEBSOCKET
                   (list_elem_of_further _ _ _ (list_elem_of_here _ _)))|].
  apply Hother; [|discriminate].
  cbn. rewrite !not_elem_of_cons, elem_of_nil.
  repeat split; try discriminate. intros [].
Defined.

Lemma constructor_acceptTags_nonempty_witness :
  constructor (VStr "lights") = inr lights_instance ∧
  names_a_tag (VStr "lights") = true ∧
  ∃ tags, get (options lights_instance) "acceptTags" = VArr tags ∧ tags ≠ [] ∧
          tags = [VStr "lights"].
Proof.
  split; [exact constructor_lights|]. split; [reflexivity|].
  exact (constructor_acceptTags_nonempty (VStr "lights") lights_instance
           constructor_lights eq_refl).
Defined.

Lemma constructor_leaves_acceptTags_unset_witness :
  let o : gmap string value :=
    {[ "appletId" := VStr "lights"; "accepts" := VNum 5 ]} in
  is_Some (o !! "appletId") ∧ o !! "hasOwnProperty" = None ∧
  o !! "accepts" = Some (VNum 5) ∧ is_string_or_array (VNum 5) = false ∧
  scenario_parse (utf8Data (text frame_all)) = Some (VObj record_all) ∧
  ∃ m, constructor (VObj o) = inr m ∧
       get (options m) "acceptTags" = VUndef ∧
       result_of (on_message scenario_parse (text frame_all)
                    (fst (run scenario_parse scenario_stringify
                            [Call_connect; Client_connect 1] (new_world m)))) =
         inl TypeError.
Proof.
  intros o.
  assert (is_Some (o !! "appletId")) as H by (eexists; vm_compute; reflexivity).
  assert (o !! "hasOwnProperty" = None) as Hs by (vm_compute; reflexivity).
  assert (o !! "accepts" = Some (VNum 5)) as Ha by (vm_compute; reflexivity).
  assert (o !! "acceptTags" = None) as Hn by (vm_compute; reflexivity).
  destruct (constructor_leaves_acceptTags_unset scenario_parse scenario_stringify
              o (VNum 5) [Call_connect; Client_connect 1] (text frame_all)
              (VObj record_all) H Hs Ha eq_refl eq_refl eq_refl)
    as (m & Hm & _ & Hrest).
  destruct (Hrest Hn) as (Hu & Hmsg).
  do 3 (split; [assumption|]). do 2 (split; [reflexivity|]).
  exists m. split; [exact Hm|]. split; [exact Hu|].
  cbv zeta in Hmsg. unfold result_of. rewrite Hmsg. reflexivity.
Defined.

(** C8, as first stated: a supplied field is not always kept.  An empty
    [authPass] is replaced by the default. *)
Lemma empty_authPass_is_replaced :
  let o : gmap string value :=
    {[ "appletId" := VStr "lights"; "authPass" := VStr "" ]} in
  ¬ (∀ m k d v,
       constructor (VObj o) = inr m →
       (k, d) ∈ (or_defaults ++ own_defaults)%list →
       o !! k = Some v →
       options m !! k = Some v).
Proof.
  intros o H.
  destruct (constructor_record o) as (m & Hm & Ho);
    [eexists; vm_compute; reflexivity|vm_compute; reflexivity|].
  assert (options m !! "authPass" = Some (VStr "external")) as Hd
    by (rewrite Ho; vm_compute; reflexivity).
  assert (("authPass", AUTH_PASS) ∈ (or_defaults ++ own_defaults)%list) as Hk
    by apply list_elem_of_further, list_elem_of_here.
  assert (o !! "authPass" = Some (VStr "")) as Hv by (vm_compute; reflexivity).
  specialize (H m "authPass" AUTH_PASS (VStr "") Hm Hk Hv).
  rewrite Hd in H. discriminate H.
Qed.

(** C9, as first stated: the accepted tags can be empty.  An empty list of
    [accepts] is taken as it is. *)
Lemma empty_accepts_gives_no_tags :
  let config := VObj {[ "appletId" := VStr "lights"; "accepts" := VArr [] ]} in
  ¬ (∀ m, constructor config = inr m →
          ∃ tags, get (options m) "acceptTags" = VArr tags ∧ tags ≠ []).
Proof.
  intros config H.
  destruct (constructor_record {[ "appletId" := VStr "lights"; "accepts" := VArr [] ]})
    as (m & Hm & Ho);
    [eexists; vm_compute; reflexivity|vm_compute; reflexivity|].
  destruct (H m Hm) as (tags & Ht & Hne).
  rewrite Ho in Ht. vm_compute in Ht. by injection Ht as <-.
Qed.


(** C10, as first stated: the accepted tags are not always left undefined.
    With [accepts: 5] the [acceptTags] the caller's record carries stay as
    they are. *)
Lemma supplied_acceptTags_are_kept :
  let o : gmap string value :=
    {[ "appletId" := VStr "lights"; "accepts" := VNum 5;
       "acceptTags" := VArr [VStr "lights"] ]} in
  ¬ (o !! "accepts" = Some (VNum 5) → is_string_or_array (VNum 5) = false →
     ∃ m, constructor (VObj o) = inr m ∧ get (options m) "acceptTags" = VUndef).
Proof.
  intros o H.
  destruct H as (m & Hm & Hu); [vm_compute; reflexivity|reflexivity|].
  vm_compute in Hm. injection Hm as <-. vm_compute in Hu. discriminate Hu.
Qed.

(** ** The scenario, frame by frame *)

Example scenario_lights_is_delivered :
  trace_of (on_message scenario_parse (text frame_lights) lights_connected) =
    [Emit Manager "wbMessage" (VObj record_lights)].
Proof. vm_compute. reflexivity. Qed.

Example scenario_thermostat_is_dropped :
  trace_of (on_message scenario_parse (text frame_thermostat) lights_connected) = [].
Proof. vm_compute. reflexivity. Qed.

Example scenario_all_is_delivered :
  trace_of (on_message scenario_parse (text frame_all) lights_connected) =
    [Emit Manager "wbMessage" (VObj record_all)].
Proof. vm_compute. reflexivity. Qed.

Example scenario_binary_is_logged :
  trace_of (on_message scenario_parse
              {| type := "binary"; utf8Data := ""; binaryData := [Byte.x01; Byte.x02] |}
              lights_connected) =
    [ConsoleLog "websocket bridge client received a binary of 2 bytes"].
Proof. vm_compute. reflexivity. Qed.

Example scenario_malformed_text_throws :
  result_of (on_message scenario_parse (text "{") lights_connected) = inl SyntaxError.
Proof. vm_compute. reflexivity. Qed.

(** A whole session with the defaults: connect, handshake, close, retry. *)
Example scenario_session :
  match session scenario_parse scenario_stringify (VStr "lights")
          [ Call_connect; Client_connect 1; Transport_sets_connected 1 true;
            Connection_error 1 "ECONNRESET";
            Transport_sets_connected 1 false; Connection_close "wss://";
            Call_sendWB (VObj record_lights); Timer_fires 0 ]
  with
  | inl _ => False
  | inr (_, calls) =>
      calls =
      [ ClientConnect "wss://127.0.0.1:444/" (VStr "wb.iotransit.net") (VStr "bridge");
        On Client "connectFailed"; On Client "connect";
        SendUTF 1 (scenario_stringify (authapp lights_options));
        On (Connection 1) "error"; On (Connection 1) "close";
        Emit Manager "connection" (VStr "websocket bridge connected");
        On (Connection 1) "message";
        Emit (Connection 1) "connectionError" (VStr "ECONNRESET");
        Emit Manager "connectionClose" (VStr "websocket bridge connection closed");
        SetTimeout (Reconnect "wss://") (VNum 5000);
        Emit Manager "sendError" (VStr "websocket bridge not connected");
        ClientConnect "wss://127.0.0.1:444/" (VStr "wb.iotransit.net") (VStr "bridge") ]
  end.
Proof. vm_compute. reflexivity. Qed.

(** The same with [autoReconnect: false]: after the close nothing more is
    asked of the client. *)
Example scenario_no_reconnect :
  match session scenario_parse scenario_stringify
          (VObj {[ "appletId" := VStr "lights"; "autoReconnect" := VBool false ]})
          [ Call_connect; Client_connect 1; Transport_sets_connected 1 true;
            Transport_sets_connected 1 false; Connection_close "wss://";
            Timer_fires 0; Call_disconnect; Call_sendWB VNull ]
  with
  | inl _ => False
  | inr (_, calls) =>
      filter is_connect_attempt calls =
      [ ClientConnect "wss://127.0.0.1:444/" (VStr "wb.iotransit.net") (VStr "bridge") ]
  end.
Proof. vm_compute. reflexivity. Qed.

(** ** The further statements on the sample deployment *)

Lemma constructor_idempotent_witness :
  constructor (VStr "lights") = inr lights_instance ∧
  constructor (VObj lights_options) = inr lights_instance.
Proof.
  split; [exact constructor_lights|].
  exact (constructor_idempotent (VStr "lights") lights_instance constructor_lights).
Defined.

Lemma constructor_fields_present_witness :
  constructor (VStr "lights") = inr lights_instance ∧
  ("reconnectionTimer", RECONNECTION_TIMER) ∈ (or_defaults ++ own_defaults)%list ∧
  ∃ v, options lights_instance !! "reconnectionTimer" = Some v ∧ truthy v = true.
Proof.
  assert (("reconnectionTimer", RECONNECTION_TIMER) ∈ or_defaults) as Hor
    by (do 6 apply list_elem_of_further; apply list_elem_of_here).
  assert (("reconnectionTimer", RECONNECTION_TIMER)
            ∈ (or_defaults ++ own_defaults)%list) as Hk
    by (apply elem_of_app; left; exact Hor).
  split; [exact constructor_lights|]. split; [exact Hk|].
  destruct (constructor_fields_present (VStr "lights") lights_instance
              "reconnectionTimer" RECONNECTION_TIMER constructor_lights Hk)
    as (v & Hv & Ht).
  exists v. split; [exact Hv|exact (Ht Hor)].
Defined.

Lemma connect_target_of_record_witness :
  prints_plainly (js_or (get kitchen "websocketBridgeUri") WEBSOCKETBRIDGE_URI) = true ∧
  prints_plainly (js_or (get kitchen "websocketBridgePort") WEBSOCKETBRIDGE_PORT) = true ∧
  ∃ m, constructor (VObj kitchen) = inr m ∧
       filter is_connect_attempt (trace_of (connect (new_world m))) =
         [ ClientConnect "ws://bridge.local:8080/" (VStr "wb.iotransit.net")
             (VStr "bridge") ].
Proof.
  assert (prints_plainly (js_or (get kitchen "websocketBridgeUri")
                            WEBSOCKETBRIDGE_URI) = true) as Hh
    by (vm_compute; reflexivity).
  assert (prints_plainly (js_or (get kitchen "websocketBridgePort")
                            WEBSOCKETBRIDGE_PORT) = true) as Hp
    by (vm_compute; reflexivity).
  split; [exact Hh|]. split; [exact Hp|].
  destruct (constructor_record kitchen) as (m & Hm & _);
    [eexists; vm_compute; reflexivity|vm_compute; reflexivity|].
  exists m. split; [exact Hm|].
  pose proof (connect_target_of_record scenario_parse scenario_stringify
                kitchen m [] Hm Hh Hp) as Ht.
  cbn [run fst] in Ht. rewrite Ht. vm_compute. reflexivity.
Defined.

Lemma sendWB_after_handshake_witness :
  is_Some (wb (this lights_connected)) ∧
  connected lights_connected !! 1%nat = Some true ∧
  scenario_stringify (VNum 7) = VStr "7" ∧
  trace_of (sendWB scenario_stringify (VNum 7)
              (world_of (on_connect scenario_stringify 1 lights_connected))) =
    [Send 1 (VStr "7")].
Proof.
  assert (is_Some (wb (this lights_connected))) as Hwb
    by (eexists; vm_compute; reflexivity).
  assert (connected lights_connected !! 1%nat = Some true) as Hc
    by (vm_compute; reflexivity).
  split; [exact Hwb|]. split; [exact Hc|]. split; [reflexivity|].
  rewrite (sendWB_after_handshake scenario_stringify lights_connected 1
             (VNum 7) "7" Hwb Hc eq_refl).
  reflexivity.
Defined.

Lemma disconnect_after_handshake_witness :
  is_Some (wb (this lights_connected)) ∧
  snd (run scenario_parse scenario_stringify
         [ Call_disconnect; Transport_sets_connected 2 false;
           Connection_close "wss://" ]
         (world_of (on_connect scenario_stringify 2 lights_connected))) =
    [ Drop 2;
      Emit Manager "connectionClose" (VStr "websocket bridge connection closed");
      SetTimeout (Reconnect "wss://") (VNum 5000) ].
Proof.
  assert (is_Some (wb (this lights_connected))) as Hwb
    by (eexists; vm_compute; reflexivity).
  split; [exact Hwb|].
  destruct (disconnect_after_handshake scenario_parse scenario_stringify
              lights_connected 2 "wss://" Hwb) as (_ & Hd & _).
  rewrite Hd. vm_compute. reflexivity.
Defined.

Lemma disconnect_after_second_connect_witness :
  websocketBridgeConnected (this lights_connected) = true ∧
  result_of (disconnect (world_of (connect lights_connected))) = inl TypeError.
Proof.
  assert (websocketBridgeConnected (this lights_connected) = true) as H
    by (vm_compute; reflexivity).
  split; [exact H|].
  rewrite (disconnect_after_second_connect lights_connected H). reflexivity.
Defined.

Lemma on_message_other_frames_witness :
  type (binary [Byte.x01; Byte.x02; Byte.x03]) ≠ "utf8" ∧
  on_message scenario_parse (binary [Byte.x01; Byte.x02; Byte.x03]) lights_connected =
    (lights_connected,
     [ConsoleLog "websocket bridge client received a binary of 3 bytes"], inr tt).
Proof.
  assert (type (binary [Byte.x01; Byte.x02; Byte.x03]) ≠ "utf8") as H
    by discriminate.
  split; [exact H|].
  exact (on_message_other_frames scenario_parse
           (binary [Byte.x01; Byte.x02; Byte.x03]) lights_connected H).
Defined.

Lemma on_message_filters_any_value_witness :
  type (text frame_all) = "utf8" ∧
  scenario_parse (utf8Data (text frame_all)) = Some (VObj record_all) ∧
  VObj record_all ≠ VNull ∧ VObj record_all ≠ VUndef ∧
  get (options (this lights_connected)) "acceptTags" = VArr [VStr "lights"] ∧
  trace_of (on_message scenario_parse (text frame_all) lights_connected) =
    [Emit Manager "wbMessage" (VObj record_all)].
Proof.
  assert (VObj record_all ≠ VNull) as Hn by discriminate.
  assert (VObj record_all ≠ VUndef) as Hu by discriminate.
  do 2 (split; [reflexivity|]). split; [exact Hn|]. split; [exact Hu|].
  split; [exact lights_connected_acceptTags|].
  rewrite (on_message_filters_any_value scenario_parse lights_connected
             (text frame_all) (VObj record_all) [VStr "lights"]
             eq_refl eq_refl Hn Hu lights_connected_acceptTags).
  vm_compute. reflexivity.
Defined.

Lemma on_message_drops_untagged_witness :
  type (text "0") = "utf8" ∧
  untagged_parse (utf8Data (text "0")) = Some (VObj {[ "p" := VStr "0" ]}) ∧
  tag_of (VObj {[ "p" := VStr "0" ]}) = VUndef ∧
  get (options (this lights_connected)) "acceptTags" = VArr [VStr "lights"] ∧
  on_message untagged_parse (text "0") lights_connected = (lights_connected, [], inr tt).
Proof.
  assert (tag_of (VObj {[ "p" := VStr "0" ]}) = VUndef) as Ht
    by (vm_compute; reflexivity).
  do 2 (split; [reflexivity|]). split; [exact Ht|].
  split; [exact lights_connected_acceptTags|].
  apply (on_message_drops_untagged untagged_parse lights_connected (text "0")
           (VObj {[ "p" := VStr "0" ]}) [VStr "lights"] eq_refl eq_refl).
  - discriminate.
  - discriminate.
  - exact Ht.
  - exact lights_connected_acceptTags.
  - intros y Hy. apply list_elem_of_singleton in Hy. exists "lights". exact Hy.
Defined.

Lemma on_message_decode_errors_witness :
  type (text "{") = "utf8" ∧
  on_message scenario_parse (text "{") lights_connected =
    (lights_connected, [], inl SyntaxError).
Proof.
  split; [reflexivity|].
  exact (on_message_decode_errors scenario_parse (text "{") lights_connected eq_refl).
Defined.

Lemma refused_attempts_are_retried_witness :
  constructor (VStr "lights") = inr lights_instance ∧
  truthy (get (options lights_instance) "autoReconnect") = true ∧
  filter is_connect_attempt
    (snd (run scenario_parse scenario_stringify
            (Call_connect :: refusals "wss://" "ECONNREFUSED" 2)
            (new_world lights_instance))) =
    replicate 3 (ClientConnect "wss://127.0.0.1:444/" (VStr "wb.iotransit.net")
                   (VStr "bridge")).
Proof.
  split; [exact constructor_lights|]. split; [reflexivity|].
  destruct (refused_attempts_are_retried scenario_parse scenario_stringify
              (VStr "lights") lights_instance "ECONNREFUSED" 2
              constructor_lights eq_refl) as [Hs _].
  change (webSocketPrefix_of (options lights_instance)) with "wss://" in Hs.
  rewrite Hs. vm_compute. reflexivity.
Defined.

Lemma run_never_cancels_timers_witness :
  Forall (λ i, is_timer_fires i = false) [Call_disconnect; Call_connect] ∧
  timers (world_of (on_close "wss://" lights_connected))
    `prefix_of`
  timers (fst (run scenario_parse scenario_stringify [Call_disconnect; Call_connect]
                 (world_of (on_close "wss://" lights_connected)))).
Proof.
  assert (Forall (λ i, is_timer_fires i = false) [Call_disconnect; Call_connect])
    as H by (repeat constructor).
  split; [exact H|].
  exact (run_never_cancels_timers scenario_parse scenario_stringify _ _ H).
Defined.

Lemma run_manager_events_witness :
  Emit Manager "sendError" (VStr "websocket bridge not connected")
    ∈ snd (run scenario_parse scenario_stringify [Call_connect; Call_sendWB VNull]
             (new_world lights_instance)) ∧
  "sendError" ∈ manager_events.
Proof.
  assert (Emit Manager "sendError" (VStr "websocket bridge not connected")
            ∈ snd (run scenario_parse scenario_stringify
                     [Call_connect; Call_sendWB VNull] (new_world lights_instance)))
    as H by (do 3 apply list_elem_of_further; apply list_elem_of_here).
  split; [exact H|].
  exact (run_manager_events scenario_parse scenario_stringify _ _ _ _ H).
Defined.

Lemma handshake_announces_configuration_witness :
  kitchen !! "accepts" = Some (VArr [VStr "lights"; VStr "heating"]) ∧
  ∃ m, constructor (VObj kitchen) = inr m ∧
       head (trace_of (on_connect scenario_stringify 1 (new_world m))) =
         Some (SendUTF 1 (scenario_stringify
           (VObj {[ "t" := VStr "authapp";
                    "p" := VObj {[ "user" := VStr "cook";
                                   "pass" := VStr "external";
                                   "accept" := VArr [VStr "lights"; VStr "heating"] ]} ]}))).
Proof.
  assert (kitchen !! "accepts" = Some (VArr [VStr "lights"; VStr "heating"])) as Ha
    by (vm_compute; reflexivity).
  split; [exact Ha|].
  destruct (constructor_record kitchen) as (m & Hm & _);
    [eexists; vm_compute; reflexivity|vm_compute; reflexivity|].
  exists m. split; [exact Hm|].
  pose proof (handshake_announces_configuration scenario_parse scenario_stringify
                kitchen m [VStr "lights"; VStr "heating"] [] 1%nat Hm Ha) as Hh.
  cbn [run fst] in Hh. rewrite Hh. vm_compute. reflexivity.
Defined.
